(** * Feature styling and tooltip callbacks of the EGMS ADA mapper

    A shallow embedding of [src/assets/dashExtensions_default.js]: the six
    callbacks [function0] .. [function5] that the map component invokes per
    feature, together with the fragment of the JavaScript run time they rely
    on (primitive values, [==], [ToString], [ToNumber],
    [Number.prototype.toFixed]) and the mutable objects they share with their
    caller. *)

From Stdlib Require Import ZArith QArith Qabs Qround Qpower Lqa Lia Bool.
From Stdlib Require Import Strings.String Strings.Ascii Lists.List.
From Stdlib Require Import Floats.PrimFloat Floats.FloatOps Floats.SpecFloat.
From Stdlib Require Import Floats.FloatAxioms.
From stdpp Require Import base option list gmap strings pretty.

Close Scope Q_scope.
#[local] Open Scope Z_scope.
#[local] Set Warnings "-inexact-float".

(** ** The JavaScript run time used by the callbacks *)

Module JS.

(** The members every plain object inherits from [Object.prototype]: the
    function [Object] (under the key [constructor]), [Object.prototype]
    itself (under [__proto__]) and ten methods. *)
Inductive builtin :=
  | BObject
  | BObjectPrototype
  | BhasOwnProperty
  | BisPrototypeOf
  | BpropertyIsEnumerable
  | BtoLocaleString
  | BtoString
  | BvalueOf
  | BdefineGetter
  | BdefineSetter
  | BlookupGetter
  | BlookupSetter.

#[global] Instance builtin_eq_dec : EqDecision builtin.
Proof. solve_decision. Defined.

(** The key under which [Object.prototype] holds each member; for a
    function this is also its name. *)
Definition builtin_key (b : builtin) : string :=
  match b with
  | BObject => "constructor"
  | BObjectPrototype => "__proto__"
  | BhasOwnProperty => "hasOwnProperty"
  | BisPrototypeOf => "isPrototypeOf"
  | BpropertyIsEnumerable => "propertyIsEnumerable"
  | BtoLocaleString => "toLocaleString"
  | BtoString => "toString"
  | BvalueOf => "valueOf"
  | BdefineGetter => "__defineGetter__"
  | BdefineSetter => "__defineSetter__"
  | BlookupGetter => "__lookupGetter__"
  | BlookupSetter => "__lookupSetter__"
  end.

(** [Object.prototype], by key. *)
Definition Object_prototype : gmap string builtin :=
  list_to_map
    ((fun b => (builtin_key b, b)) <$>
     [BObject; BObjectPrototype; BhasOwnProperty; BisPrototypeOf;
      BpropertyIsEnumerable; BtoLocaleString; BtoString; BvalueOf;
      BdefineGetter; BdefineSetter; BlookupGetter; BlookupSetter]).

(** ToPrimitive of these objects: [valueOf] returns the object itself, so
    the result is that of [toString]: "[object Object]" for
    [Object.prototype], and for a function its source text, which for a
    built-in function is implementation-defined within the syntax
    NativeFunction; it is given here as V8 prints it. *)
Definition ToPrimitive (b : builtin) : string :=
  match b with
  | BObjectPrototype => "[object Object]"
  | BObject => "function Object() { [native code] }"
  | _ => "function " +:+ builtin_key b +:+ "() { [native code] }"
  end.

(** The values read from the objects the callbacks receive.  Feature
    properties and the entries of the hideout arrive as JSON, so their own
    properties hold primitives; numbers are IEEE 754 binary64 values,
    strings are sequences of code units (here: of code units below 256).
    A read of a key an object does not have itself can also give one of the
    members it inherits from [Object.prototype]. *)
Inductive prim :=
  | PUndefined
  | PNull
  | PBool (b : bool)
  | PNum (x : float)
  | PStr (s : string)
  | PObject (b : builtin).

(** *** Decimal digits *)

Definition digit_char (d : Z) : ascii := ascii_of_N (48 + Z.to_N d).

(** The decimal representation of a non-negative integer, most significant
    digit first, no leading zero ("0" for zero). *)
Fixpoint decimal_digits_go (fuel : nat) (n : Z) (acc : string) : string :=
  match fuel with
  | O => acc
  | S fuel' =>
      let acc' := String (digit_char (n mod 10)) acc in
      if n / 10 =? 0 then acc' else decimal_digits_go fuel' (n / 10) acc'
  end.

Definition decimal_digits (n : Z) : string :=
  decimal_digits_go (S (Z.to_nat (Z.log2 n))) n EmptyString.

Fixpoint zeros (n : nat) : string :=
  match n with
  | O => EmptyString
  | S n' => String "0" (zeros n')
  end.

(** The first [n] characters of a string, and the remaining ones. *)
Fixpoint str_take (n : nat) (s : string) : string :=
  match n, s with
  | S n', String c s' => String c (str_take n' s')
  | _, _ => EmptyString
  end.

Fixpoint str_drop (n : nat) (s : string) : string :=
  match n, s with
  | S n', String _ s' => str_drop n' s'
  | _, _ => s
  end.

(** *** Exact values of binary64 numbers *)

Definition pow10 (p : Z) : Q := Qpower (inject_Z 10) p.
Definition pow2 (p : Z) : Q := Qpower (inject_Z 2) p.

(** The real number denoted by the finite double [m * 2^e]. *)
Definition Q_of_finite (m : positive) (e : Z) : Q :=
  Qred (Qmult (inject_Z (Zpos m)) (pow2 e)).

(** The reals that round to the double [m * 2^e] (round to nearest, ties to
    even) form an interval around it, closed exactly when [m] is even.  Below
    a power of two the neighbouring double is only half as far away. *)
Definition round_lo (m : positive) (e : Z) : Q :=
  let below := if (Zpos m =? 2 ^ 52) && (-1074 <? e) then 1 else 2 in
  Qmult (inject_Z (4 * Zpos m - below)) (pow2 (e - 2)).

Definition round_hi (m : positive) (e : Z) : Q :=
  Qmult (inject_Z (4 * Zpos m + 2)) (pow2 (e - 2)).

Definition Qlt_bool (a b : Q) : bool := negb (Qle_bool b a).

Definition rounds_to (m : positive) (e : Z) (r : Q) : bool :=
  if Z.even (Zpos m)
  then Qle_bool (round_lo m e) r && Qle_bool r (round_hi m e)
  else Qlt_bool (round_lo m e) r && Qlt_bool r (round_hi m e).

(** The double nearest to the positive rational [a / b] (ties to even,
    overflow to infinity), with sign [neg].  The quotient is taken with 1100
    fractional bits, below half of the least subnormal, and one sticky bit. *)
Definition float_of_ratio (neg : bool) (a b : Z) : float :=
  let q := (a * 2 ^ 1100) / b in
  let sticky := if (a * 2 ^ 1100) mod b =? 0 then 0 else 1 in
  let mant := 2 * q + sticky in
  SF2Prim (binary_normalize prec emax (if neg then - mant else mant) (-1101) neg).

(** [mant * 10^exp10] as a double. *)
Definition float_of_decimal (neg : bool) (mant exp10 : Z) : float :=
  if 0 <=? exp10
  then float_of_ratio neg (mant * 10 ^ exp10) 1
  else float_of_ratio neg mant (10 ^ (- exp10)).

(** *** Number::toString (radix 10) *)

(** The decimal exponent [n] of a positive real: [10^(n-1) <= x < 10^n].
    Every positive double lies between [10^-324] and [10^309]. *)
Fixpoint decimal_exponent_go (fuel : nat) (n : Z) (x : Q) : Z :=
  match fuel with
  | O => n
  | S fuel' =>
      if Qle_bool (pow10 (n - 1)) x then n
      else decimal_exponent_go fuel' (n - 1) x
  end.

Definition decimal_exponent (x : Q) : Z := decimal_exponent_go 640 309 x.

Definition Qdist (a b : Q) : Q := Qabs (Qminus a b).

(** A candidate digit string: the integer [s] has [k] digits and the
    candidate denotes [s * 10^(n-k)]. *)
Record digits := { dg_s : Z; dg_k : Z; dg_n : Z }.

Definition digits_value (d : digits) : Q :=
  Qmult (inject_Z (dg_s d)) (pow10 (dg_n d - dg_k d)).

(** A carry out of the top digit ([s = 10^k]) is the one-digit string 1 with
    the next exponent. *)
Definition normalise_carry (d : digits) : digits :=
  if dg_s d =? 10 ^ dg_k d
  then {| dg_s := 1; dg_k := 1; dg_n := dg_n d + 1 |}
  else d.

(** Step 5 of Number::toString: the shortest digit string that rounds to
    the double [m * 2^e]; among the strings of that length the one nearest
    to it, and the even one on a tie. *)
Fixpoint shortest_digits_go (fuel : nat) (k : Z) (m : positive) (e : Z)
    (x : Q) (n : Z) : digits :=
  let below := Qfloor (Qdiv x (pow10 (n - k))) in
  let lo := {| dg_s := below; dg_k := k; dg_n := n |} in
  let hi := {| dg_s := below + 1; dg_k := k; dg_n := n |} in
  let ok_lo := rounds_to m e (digits_value lo) in
  let ok_hi := rounds_to m e (digits_value hi) in
  let nearest :=
    match Qcompare (Qdist (digits_value lo) x) (Qdist (digits_value hi) x) with
    | Lt => lo
    | Gt => hi
    | Eq => if Z.even below then lo else hi
    end in
  match fuel with
  | O => normalise_carry nearest
  | S fuel' =>
      match ok_lo, ok_hi with
      | true, true => normalise_carry nearest
      | true, false => lo
      | false, true => normalise_carry hi
      | false, false => shortest_digits_go fuel' (k + 1) m e x n
      end
  end.

Definition shortest_digits (m : positive) (e : Z) : digits :=
  let x := Q_of_finite m e in
  shortest_digits_go 16 1 m e x (decimal_exponent x).

(** Steps 6 to 10: layout of the digits. *)
Definition layout_digits (d : digits) : string :=
  let s := decimal_digits (dg_s d) in
  let k := dg_k d in
  let n := dg_n d in
  if (k <=? n) && (n <=? 21) then
    s +:+ zeros (Z.to_nat (n - k))
  else if (0 <? n) && (n <=? 21) then
    str_take (Z.to_nat n) s +:+ "." +:+ str_drop (Z.to_nat n) s
  else if (-6 <? n) && (n <=? 0) then
    "0." +:+ zeros (Z.to_nat (- n)) +:+ s
  else
    let exponent :=
      "e" +:+ (if n - 1 <? 0 then "-" else "+") +:+ decimal_digits (Z.abs (n - 1)) in
    if k =? 1 then s +:+ exponent
    else str_take 1 s +:+ "." +:+ str_drop 1 s +:+ exponent.

Definition Number_toString (x : float) : string :=
  match Prim2SF x with
  | S754_nan => "NaN"
  | S754_zero _ => "0"
  | S754_infinity false => "Infinity"
  | S754_infinity true => "-Infinity"
  | S754_finite neg m e =>
      (if neg then "-" else "") +:+ layout_digits (shortest_digits m e)
  end.

(** *** Number.prototype.toFixed *)

(** The integer [n] for which [n / 10^f - x] is as close to zero as
    possible, the larger one if there are two. *)
Definition nearest_scaled (x : Q) (f : Z) : Z :=
  Qfloor (Qplus (Qmult x (pow10 f)) (1 # 2)).

(** Step 11.c: pad to more than [f] digits and insert the point. *)
Definition insert_point (m : string) (f : nat) : string :=
  match f with
  | O => m
  | _ =>
      let k := String.length m in
      let m' := if (k <=? f)%nat then zeros (f + 1 - k) +:+ m else m in
      let k' := String.length m' in
      str_take (k' - f) m' +:+ "." +:+ str_drop (k' - f) m'
  end.

(** [x.toFixed(f)] for [0 <= f <= 100] (a RangeError otherwise, which the
    callbacks cannot raise: they pass the literal 2). *)
Definition toFixed (x : float) (f : nat) : string :=
  match Prim2SF x with
  | S754_nan => "NaN"
  | S754_infinity false => "Infinity"
  | S754_infinity true => "-Infinity"
  | S754_zero _ => insert_point "0" f
  | S754_finite neg m e =>
      let r := Q_of_finite m e in
      (if neg then "-" else "") +:+
      (if Qle_bool (pow10 21) r
       then layout_digits (shortest_digits m e)
       else insert_point (decimal_digits (nearest_scaled r (Z.of_nat f))) f)
  end.

(** *** StringToNumber *)

Definition is_white_space (c : ascii) : bool :=
  match N_of_ascii c with
  | 9%N | 10%N | 11%N | 12%N | 13%N | 32%N | 160%N => true
  | _ => false
  end.

Fixpoint skip_white_space (l : list ascii) : list ascii :=
  match l with
  | c :: l' => if is_white_space c then skip_white_space l' else l
  | [] => []
  end.

Definition trim_white_space (l : list ascii) : list ascii :=
  rev (skip_white_space (rev (skip_white_space l))).

(** The value of a digit in a radix up to 16. *)
Definition digit_value (radix : Z) (c : ascii) : option Z :=
  let n := Z.of_N (N_of_ascii c) in
  let d :=
    if (48 <=? n) && (n <=? 57) then Some (n - 48)
    else if (97 <=? n) && (n <=? 102) then Some (n - 87)
    else if (65 <=? n) && (n <=? 70) then Some (n - 55)
    else None in
  match d with
  | Some v => if v <? radix then Some v else None
  | None => None
  end.

(** The longest prefix of digits, its value so far, and the rest. *)
Fixpoint span_digits (radix : Z) (l : list ascii) (acc : Z) (count : nat)
    : Z * nat * list ascii :=
  match l with
  | c :: l' =>
      match digit_value radix c with
      | Some d => span_digits radix l' (radix * acc + d) (S count)
      | None => (acc, count, l)
      end
  | [] => (acc, count, [])
  end.

(** A non-empty run of digits and nothing else. *)
Definition all_digits (radix : Z) (l : list ascii) : option Z :=
  match span_digits radix l 0 O with
  | (v, S _, []) => Some v
  | _ => None
  end.

(** ExponentPart, optional: [e] or [E], an optional sign, digits. *)
Definition exponent_part (l : list ascii) : option Z :=
  match l with
  | [] => Some 0
  | c :: l' =>
      if Ascii.eqb c "e" || Ascii.eqb c "E" then
        match l' with
        | "+"%char :: ds => all_digits 10 ds
        | "-"%char :: ds => Z.opp <$> all_digits 10 ds
        | ds => all_digits 10 ds
        end
      else None
  end.

(** StrUnsignedDecimalLiteral other than Infinity, as mantissa and decimal
    exponent: digits, an optional point with optional digits, an optional
    exponent; at least one digit before or after the point. *)
Definition unsigned_decimal (l : list ascii) : option (Z * Z) :=
  let '(int_value, int_count, rest) := span_digits 10 l 0 O in
  let '(mant, frac_count, rest') :=
    match rest with
    | "."%char :: r => span_digits 10 r int_value O
    | _ => (int_value, O, rest)
    end in
  match int_count, frac_count with
  | O, O => None
  | _, _ =>
      match exponent_part rest' with
      | Some ex => Some (mant, ex - Z.of_nat frac_count)
      | None => None
      end
  end.

Definition str_unsigned_decimal (neg : bool) (l : list ascii) : float :=
  if String.eqb (string_of_list_ascii l) "Infinity"
  then (if neg then neg_infinity else infinity)
  else match unsigned_decimal l with
       | Some (mant, exp10) => float_of_decimal neg mant exp10
       | None => nan
       end.

Definition non_decimal (radix : Z) (ds : list ascii) : float :=
  match all_digits radix ds with
  | Some v => float_of_decimal false v 0
  | None => nan
  end.

Definition StringToNumber (s : string) : float :=
  match trim_white_space (list_ascii_of_string s) with
  | [] => zero
  | "0"%char :: "x"%char :: ds | "0"%char :: "X"%char :: ds => non_decimal 16 ds
  | "0"%char :: "o"%char :: ds | "0"%char :: "O"%char :: ds => non_decimal 8 ds
  | "0"%char :: "b"%char :: ds | "0"%char :: "B"%char :: ds => non_decimal 2 ds
  | "+"%char :: l => str_unsigned_decimal false l
  | "-"%char :: l => str_unsigned_decimal true l
  | l => str_unsigned_decimal false l
  end.

(** *** Conversions and equality of primitives *)

Definition ToNumber (p : prim) : float :=
  match p with
  | PUndefined => nan
  | PNull => zero
  | PBool true => one
  | PBool false => zero
  | PNum x => x
  | PStr s => StringToNumber s
  | PObject b => StringToNumber (ToPrimitive b)
  end.

Definition ToString (p : prim) : string :=
  match p with
  | PUndefined => "undefined"
  | PNull => "null"
  | PBool true => "true"
  | PBool false => "false"
  | PNum x => Number_toString x
  | PStr s => s
  | PObject b => ToPrimitive b
  end.

(** A computed member access [o[p]] converts the key with ToPropertyKey,
    which on these values is ToString. *)
Definition ToPropertyKey (p : prim) : string := ToString p.

(** Number::equal: IEEE comparison, so NaN differs from everything and the
    two zeros are equal. *)
Definition Number_equal (x y : float) : bool := PrimFloat.eqb x y.

(** IsLooselyEqual, the [==] operator. *)
Definition IsLooselyEqual (x y : prim) : bool :=
  match x, y with
  (* 1. same type: IsStrictlyEqual *)
  | PUndefined, PUndefined => true
  | PNull, PNull => true
  | PBool a, PBool b => Bool.eqb a b
  | PNum a, PNum b => Number_equal a b
  | PStr a, PStr b => String.eqb a b
  (* 2, 3. null and undefined *)
  | PNull, PUndefined => true
  | PUndefined, PNull => true
  (* 5, 6. a Number and a String *)
  | PNum a, PStr b => Number_equal a (StringToNumber b)
  | PStr a, PNum b => Number_equal (StringToNumber a) b
  (* 9, 10. a Boolean is converted to a Number and compared again *)
  | PBool a, PNum b => Number_equal (ToNumber (PBool a)) b
  | PBool a, PStr b => Number_equal (ToNumber (PBool a)) (StringToNumber b)
  | PNum a, PBool b => Number_equal a (ToNumber (PBool b))
  | PStr a, PBool b => Number_equal (StringToNumber a) (ToNumber (PBool b))
  (* 1. two objects: the same object *)
  | PObject a, PObject b => bool_decide (a = b)
  (* 11, 12. an object and a String or Number: ToPrimitive of the object *)
  | PObject a, PStr b => String.eqb (ToPrimitive a) b
  | PStr a, PObject b => String.eqb a (ToPrimitive b)
  | PObject a, PNum b => Number_equal (StringToNumber (ToPrimitive a)) b
  | PNum a, PObject b => Number_equal a (StringToNumber (ToPrimitive b))
  (* 9, 10 then 11, 12. an object and a Boolean *)
  | PObject a, PBool b =>
      Number_equal (StringToNumber (ToPrimitive a)) (ToNumber (PBool b))
  | PBool a, PObject b =>
      Number_equal (ToNumber (PBool a)) (StringToNumber (ToPrimitive b))
  (* 14. otherwise *)
  | _, _ => false
  end.

End JS.

(** ** The colour-scale library

    [chroma.scale(colorscale).domain([min, max])] is a call into a
    third-party library whose code is not part of the repository. *)

Module Chroma.

Record rgb := { red : Q; green : Q; blue : Q }.

(** Two colours are the same when their channels are equal rationals. *)
Definition rgb_eq (c d : rgb) : Prop :=
  Qeq (red c) (red d) /\ Qeq (green c) (green d) /\ Qeq (blue c) (blue d).

(** An extended real: the numbers other than NaN. *)
Inductive xnum := NegInf | Finite (q : Q) | PosInf.

Definition xnum_of_float (x : float) : option xnum :=
  match Prim2SF x with
  | S754_nan => None
  | S754_zero _ => Some (Finite 0%Q)
  | S754_infinity s => Some (if s then NegInf else PosInf)
  | S754_finite s m e =>
      Some (Finite (if s then Qopp (JS.Q_of_finite m e) else JS.Q_of_finite m e))
  end.

Definition xnum_of_prim (p : JS.prim) : option xnum :=
  match p with
  | JS.PNum x => xnum_of_float x
  | _ => None
  end.

Definition finite_of_prim (p : JS.prim) : option Q :=
  match xnum_of_prim p with
  | Some (Finite q) => Some q
  | _ => None
  end.

Definition xlt (a b : xnum) : Prop :=
  match a, b with
  | NegInf, NegInf => False
  | NegInf, _ => True
  | Finite x, Finite y => Qlt x y
  | Finite _, PosInf => True
  | _, _ => False
  end.

(** Modelled from the spec: the clamping of a position to the scale,
    [0] for the first stop and [1] for the last (the library is missing from
    src/). *)
Definition clamp01 (t : Q) : Q :=
  if Qle_bool t 0%Q then 0%Q
  else if Qle_bool 1%Q t then 1%Q
  else t.

(** Modelled from the spec: the linear map of the domain [lo, hi] onto the
    scale, with values outside the domain clamped to the nearest endpoint
    ("linearly mapping the domain [min, max] onto it", "values outside
    [min, max] clamp to the nearest domain endpoint's color").  The code of
    [chroma.scale(..).domain(..)] is missing from src/; arithmetic is exact
    here. *)
Definition position (lo hi : Q) (v : xnum) : Q :=
  match v with
  | NegInf => 0%Q
  | PosInf => 1%Q
  | Finite q => clamp01 (Qdiv (Qminus q lo) (Qminus hi lo))
  end.

(** Modelled from the spec: linear interpolation of one channel, and of a
    colour channel by channel (the library is missing from src/).  The
    result is a reduced fraction, so that equal colours are equal terms. *)
Definition lerp (a b t : Q) : Q := Qred (Qplus a (Qmult t (Qminus b a))).

Definition mix (c d : rgb) (t : Q) : rgb :=
  {| red := lerp (red c) (red d) t;
     green := lerp (green c) (green d) t;
     blue := lerp (blue c) (blue d) t |}.

(** Modelled from the spec: the "continuous color interpolation function
    over colorscale", missing from src/ like the rest of the library: the
    stops are spread evenly over [0, 1] and neighbouring stops are
    interpolated linearly, channel by channel.  No stops, no colour. *)
Definition interpolate (stops : list rgb) (t : Q) : option rgb :=
  match stops with
  | [] => None
  | [c] => Some (mix c c t)
  | _ =>
      let segments := Z.of_nat (length stops) - 1 in
      let scaled := Qmult t (inject_Z segments) in
      let j := Z.max 0 (Z.min (Qfloor scaled) (segments - 1)) in
      match stops !! Z.to_nat j, stops !! S (Z.to_nat j) with
      | Some c, Some d => Some (mix c d (Qminus scaled (inject_Z j)))
      | _, _ => None
      end
  end.

Section Scale.
(** How the library reads a colour specification ("red", "#ff0000") is
    not described by the specification: a parameter. *)
Variable parse : JS.prim -> rgb.

(** Modelled from the spec: [chroma.scale(colorscale).domain([min, max])]
    applied to a value.  The code is missing from src/.  "A missing or
    non-numeric property yields an implementation-defined (typically
    invalid/NaN) color": no colour here, as for a domain that is not a
    pair of finite numbers. *)
Definition scale (colorscale : list JS.prim) (min max value : JS.prim)
    : option rgb :=
  match finite_of_prim min, finite_of_prim max, xnum_of_prim value with
  | Some lo, Some hi, Some v =>
      interpolate (parse <$> colorscale) (position lo hi v)
  | _, _, _ => None
  end.
End Scale.

End Chroma.

(** ** Objects shared with the caller *)

(** What a property of a style or options object can hold: a primitive, or
    a colour object returned by the colour-scale library. *)
Inductive val :=
  | VPrim (p : JS.prim)
  | VColor (c : option Chroma.rgb).

(** Objects live in a store and are passed by reference, so that a write
    through one reference is seen through every other. *)
Definition loc := positive.
Abbreviation obj := (gmap string val).
Abbreviation heap := (gmap loc obj).

(** [o.k = v] for the object at [l]. *)
Definition set_property (l : loc) (k : string) (v : val) (h : heap) : heap :=
  alter (insert k v) l h.

(** The properties of the object at [l]. *)
Definition deref (h : heap) (l : loc) : obj := default ∅ (h !! l).

(** [o[k]] on a plain object with the own properties [o]: the own property
    if there is one, else the member inherited from [Object.prototype], else
    [undefined]. *)
Definition get_property (o : gmap string JS.prim) (k : string) : JS.prim :=
  match o !! k with
  | Some v => v
  | None =>
      match JS.Object_prototype !! k with
      | Some b => JS.PObject b
      | None => JS.PUndefined
      end
  end.

(** [a[i]] on an array: [undefined] out of range. *)
Definition get_index (a : list JS.prim) (i : nat) : JS.prim :=
  default JS.PUndefined (a !! i).

(** ** The map library *)

Module Leaflet.

Record latlng := { lat : float; lng : float }.

Record marker := { marker_latlng : latlng; marker_options : obj }.

(** Modelled from the spec: [L.circleMarker(latlng, options)], missing from
    src/: "an external renderable circle-marker object constructed fresh per
    point feature, configured with a copy of base circle options".  The
    marker keeps the properties the options object has when it is built. *)
Definition circleMarker (ll : latlng) (options : obj) : marker :=
  {| marker_latlng := ll; marker_options := options |}.

Record layer := { tooltip : option string }.

(** Modelled from the spec: [layer.bindTooltip(content)], missing from
    src/: "attach a textual tooltip to the corresponding rendered layer". *)
Definition bindTooltip (l : layer) (content : string) : layer :=
  {| tooltip := Some content |}.

End Leaflet.

(** ** Arguments of the callbacks *)

Record feature := { properties : gmap string JS.prim }.

Module Hideout.
Record t := {
  classes : list JS.prim;
  colorscale : list JS.prim;
  style : loc;
  colorProp : string;
  circleOptions : loc;
  color_dict : gmap string JS.prim;
  min : JS.prim;
  max : JS.prim
}.
End Hideout.

Record context := { hideout : Hideout.t }.

(** ** Exceptions *)

Inductive error := TypeError.

Inductive result (A : Type) :=
  | Ok (a : A)
  | Throw (e : error).
Arguments Ok {A} a.
Arguments Throw {A} e.

#[global] Instance result_ret : MRet result := @Ok.

#[global] Instance result_bind : MBind result := fun A B k r =>
  match r with
  | Ok a => k a
  | Throw e => Throw e
  end.

(** [p.toFixed(digits)]: the method exists on numbers only; the member
    access fails on [undefined] and [null], the call on the other values. *)
Definition call_toFixed (p : JS.prim) (digits : nat) : result string :=
  match p with
  | JS.PNum x => Ok (JS.toFixed x digits)
  | _ => Throw TypeError
  end.

(** [p * 100]. *)
Definition times100 (p : JS.prim) : float :=
  PrimFloat.mul (JS.ToNumber p) 100%float.

(** ** The callbacks *)

(** The body of the [for] loop of [function0] at index [i]. *)
Definition function0_step (value : JS.prim) (classes colorscale : list JS.prim)
    (style : loc) (h : heap) (i : nat) : heap :=
  if JS.IsLooselyEqual value (get_index classes i)
  then set_property style "fillColor" (VPrim (get_index colorscale i)) h
  else h.

(** [function0(feature, context)]: returns the reference [style] it was
    given and the store after its writes. *)
Definition function0 (feature : feature) (context : context) (h : heap)
    : loc * heap :=
  let classes := Hideout.classes (hideout context) in
  let colorscale := Hideout.colorscale (hideout context) in
  let style := Hideout.style (hideout context) in
  let colorProp := Hideout.colorProp (hideout context) in
  let value := get_property (properties feature) colorProp in
  let h' :=
    fold_left (function0_step value classes colorscale style)
      (seq 0 (length classes)) h in
  (style, h').

(** [function1(feature, latlng, context)]. *)
Definition function1 (feature : feature) (latlng : Leaflet.latlng)
    (context : context) (h : heap) : Leaflet.marker * heap :=
  let colorProp := Hideout.colorProp (hideout context) in
  let circleOptions := Hideout.circleOptions (hideout context) in
  let color_dict := Hideout.color_dict (hideout context) in
  let value := get_property (properties feature) colorProp in
  let h' :=
    set_property circleOptions "fillColor"
      (VPrim (get_property color_dict (JS.ToPropertyKey value))) h in
  (Leaflet.circleMarker latlng (deref h' circleOptions), h').

(** The end of a line inside the template literals: the markup "<br>", a
    line feed and the sixteen spaces that indent the next line of the
    source. *)
Definition br : string :=
  "<br>" +:+ String (ascii_of_N 10) "                ".

(** The template literal of [function2]; its substitutions are evaluated
    from left to right. *)
Definition function2_text (feature : feature) : result string :=
  let p := properties feature in
  pid ← mret (JS.ToString (get_property p "pid"));
  mean_velocity ← call_toFixed (get_property p "mean_velocity") 2;
  mp_label_prob ← call_toFixed (get_property p "mp_label_prob") 2;
  trend_class ← mret (JS.ToString (get_property p "trend_class"));
  trend_subclass ← mret (JS.ToString (get_property p "trend_subclass"));
  mret ("PID: " +:+ pid +:+ br
    +:+ "Mean velocity: " +:+ mean_velocity +:+ "mm/yr" +:+ br
    +:+ "Label prob: " +:+ mp_label_prob +:+ br
    +:+ "Trend class: " +:+ trend_class +:+ br
    +:+ "Trend subclass: " +:+ trend_subclass +:+ "<br>").

(** [function2(feature, layer, context)]: the layer after the call. *)
Definition function2 (feature : feature) (layer : Leaflet.layer)
    (context : context) : result Leaflet.layer :=
  text ← function2_text feature;
  mret (Leaflet.bindTooltip layer text).

(** The template literal of [function3]. *)
Definition function3_text (feature : feature) : result string :=
  let p := properties feature in
  n_ada_points ← mret (JS.ToString (get_property p "n_ada_points"));
  mean_velocity ← call_toFixed (get_property p "mean_velocity") 2;
  stable_prop ← call_toFixed (JS.PNum (times100 (get_property p "stable_prop"))) 2;
  label_prob ← call_toFixed (get_property p "label_prob") 2;
  ada_major_class ← mret (JS.ToString (get_property p "ada_major_class"));
  ada_major_subclass ← mret (JS.ToString (get_property p "ada_major_subclass"));
  mret ("N active MPs: " +:+ n_ada_points +:+ br
    +:+ "Mean velocity: " +:+ mean_velocity +:+ "mm/yr" +:+ br
    +:+ "Stable prop: " +:+ stable_prop +:+ "%" +:+ br
    +:+ "Avg. label prob: " +:+ label_prob +:+ br
    +:+ "ADA major class: " +:+ ada_major_class +:+ br
    +:+ "ADA major subclass: " +:+ ada_major_subclass +:+ "<br>").

(** [function3(feature, layer, context)]. *)
Definition function3 (feature : feature) (layer : Leaflet.layer)
    (context : context) : result Leaflet.layer :=
  text ← function3_text feature;
  mret (Leaflet.bindTooltip layer text).

Section Continuous.
Variable parse : JS.prim -> Chroma.rgb.

(** [const csc = chroma.scale(colorscale).domain([min, max])]. *)
Definition csc (context : context) : JS.prim -> option Chroma.rgb :=
  Chroma.scale parse (Hideout.colorscale (hideout context))
    (Hideout.min (hideout context)) (Hideout.max (hideout context)).

(** [function4(feature, latlng, context)]. *)
Definition function4 (feature : feature) (latlng : Leaflet.latlng)
    (context : context) (h : heap) : Leaflet.marker * heap :=
  let circleOptions := Hideout.circleOptions (hideout context) in
  let colorProp := Hideout.colorProp (hideout context) in
  let h' :=
    set_property circleOptions "fillColor"
      (VColor (csc context (get_property (properties feature) colorProp))) h in
  (Leaflet.circleMarker latlng (deref h' circleOptions), h').

(** [function5(feature, context)]. *)
Definition function5 (feature : feature) (context : context) (h : heap)
    : loc * heap :=
  let style := Hideout.style (hideout context) in
  let colorProp := Hideout.colorProp (hideout context) in
  let h' :=
    set_property style "fillColor"
      (VColor (csc context (get_property (properties feature) colorProp))) h in
  (style, h').
End Continuous.

(** ** Vocabulary of the properties *)

(** The indices below [n] at which [value == classes[i]], in order. *)
Definition matching_indices (value : JS.prim) (classes : list JS.prim) (n : nat)
    : list nat :=
  filter (fun i => JS.IsLooselyEqual value (get_index classes i) = true) (seq 0 n).

Definition first_match (value : JS.prim) (classes : list JS.prim) : option nat :=
  head (matching_indices value classes (length classes)).

Definition last_match (value : JS.prim) (classes : list JS.prim) : option nat :=
  last (matching_indices value classes (length classes)).

(** The fill colour of the object at [l]. *)
Definition fill_color (h : heap) (l : loc) : option val :=
  deref h l !! "fillColor".

(** [s] occurs in [t]. *)
Definition contains (t s : string) : Prop :=
  exists before after, t = before +:+ s +:+ after.

Definition is_decimal_digit (c : ascii) : bool :=
  (48 <=? N_of_ascii c)%N && (N_of_ascii c <=? 57)%N.

Fixpoint all_decimal_digits (s : string) : bool :=
  match s with
  | EmptyString => true
  | String c s' => is_decimal_digit c && all_decimal_digits s'
  end.

(** From [a] towards [b]: [x] then [y] lie between them, in this order. *)
Definition moves_towards (a b x y : Q) : Prop :=
  (Qle a b -> Qle a x /\ Qle x y /\ Qle y b) /\
  (Qle b a -> Qle b y /\ Qle y x /\ Qle x a).

(** Channel by channel, the colours [x] then [y] move from [c] to [d]. *)
Definition rgb_moves_towards (c d x y : Chroma.rgb) : Prop :=
  moves_towards (Chroma.red c) (Chroma.red d) (Chroma.red x) (Chroma.red y) /\
  moves_towards (Chroma.green c) (Chroma.green d) (Chroma.green x) (Chroma.green y) /\
  moves_towards (Chroma.blue c) (Chroma.blue d) (Chroma.blue x) (Chroma.blue y).

(** The colour object [function5] leaves in the style's [fillColor]. *)
Definition resolved_color (parse : JS.prim -> Chroma.rgb) (feature : feature)
    (context : context) (h : heap) : option Chroma.rgb :=
  match fill_color (function5 parse feature context h).2
          (Hideout.style (hideout context)) with
  | Some (VColor c) => c
  | _ => None
  end.

(** Fixed-point notation with [f] decimal places: an optional minus sign,
    at least one digit, a point, exactly [f] digits. *)
Definition fixed_notation (f : nat) (s : string) : Prop :=
  exists sign whole frac,
    s = sign +:+ whole +:+ "." +:+ frac /\
    (sign = "" \/ sign = "-") /\
    whole <> "" /\
    all_decimal_digits whole = true /\
    all_decimal_digits frac = true /\
    String.length frac = f.

(** The numbers [toFixed] prints in fixed-point notation: the finite ones
    of magnitude below [10^21]. *)
Definition fixed_range (x : float) : bool :=
  match Prim2SF x with
  | S754_zero _ => true
  | S754_finite _ m e => negb (Qle_bool (JS.pow10 21) (JS.Q_of_finite m e))
  | _ => false
  end.

(** Between the stores [h] and [h'] nothing was written but, at most, the
    property [k] of the object at [l]: the same objects exist, every other
    object is as it was, and so is every other property of that object. *)
Definition writes_only (l : loc) (k : string) (h h' : heap) : Prop :=
  dom h' = dom h /\
  (forall l', l' <> l -> h' !! l' = h !! l') /\
  (forall k', k' <> k -> deref h' l !! k' = deref h l !! k').

(** The number a string of decimal digits denotes. *)
Fixpoint decimal_value_go (s : string) (acc : Z) : Z :=
  match s with
  | EmptyString => acc
  | String c s' => decimal_value_go s' (10 * acc + (Z.of_N (N_of_ascii c) - 48))
  end.

Definition decimal_value (s : string) : Z := decimal_value_go s 0.

(** The number shown by the digits [whole], a point and the two digits
    [frac]. *)
Definition shown_value (whole frac : string) : Q :=
  Qmake (decimal_value (whole +:+ frac)) 100.

(** The real number a binary64 value denotes; none for NaN and the
    infinities. *)
Definition exact_value (x : float) : option Q :=
  match Prim2SF x with
  | S754_zero _ => Some 0%Q
  | S754_finite neg m e =>
      Some (if neg then Qopp (JS.Q_of_finite m e) else JS.Q_of_finite m e)
  | _ => None
  end.

(** [shown] is the number [q] to two decimal places: a minus sign exactly
    when [q] is negative, at least one decimal digit, a point and exactly two
    decimal digits, which together denote a number that differs from the
    magnitude of [q] by at most half a hundredth. *)
Definition shows_two_decimals (shown : string) (q : Q) : Prop :=
  exists (neg : bool) (whole frac : string),
    shown = (if neg then "-" else "") +:+ whole +:+ "." +:+ frac /\
    (neg = true <-> Qlt q 0) /\
    whole <> "" /\
    all_decimal_digits whole = true /\
    all_decimal_digits frac = true /\
    String.length frac = 2%nat /\
    Qle (Qabs (Qminus (shown_value whole frac) (Qabs q))) (1 # 200).

(** Whether a string has a decimal point. *)
Fixpoint has_point (s : string) : bool :=
  match s with
  | EmptyString => false
  | String c s' => Ascii.eqb c "." || has_point s'
  end.

(** ** Registration of the callbacks

    [window.dashExtensions = Object.assign({}, window.dashExtensions,
    {default: {function0: .., .., function5: ..}})]. *)

(** A function value held by a namespace: one of the six callbacks of this
    file, or a function that other code registered. *)
Inductive callback :=
  | Callback0 | Callback1 | Callback2 | Callback3 | Callback4 | Callback5
  | Foreign (id : positive).

(** [Object.assign(target, ...sources)]: the own properties of each source
    are copied over the target, in order; an [undefined] source is
    skipped. *)
Definition Object_assign {V : Type} (target : gmap string V)
    (sources : list (option (gmap string V))) : gmap string V :=
  fold_left
    (fun t source => match source with Some o => o ∪ t | None => t end)
    sources target.

(** The object literal under the key [default]. *)
Definition default_namespace : gmap string callback :=
  <["function0" := Callback0]> (<["function1" := Callback1]>
  (<["function2" := Callback2]> (<["function3" := Callback3]>
  (<["function4" := Callback4]> (<["function5" := Callback5]> ∅))))).

(** The value assigned to [window.dashExtensions], from its value before
    the script runs ([None] when it is [undefined]). *)
Definition dashExtensions (before : option (gmap string (gmap string callback)))
    : gmap string (gmap string callback) :=
  Object_assign ∅ [before; Some {["default" := default_namespace]}].

(** ** Sample inputs *)

Module Sample.

Definition style_ref : loc := 1%positive.
Definition options_ref : loc := 2%positive.

(** A store with a style object and a circle-options object. *)
Definition store : heap :=
  <[style_ref := <["fillColor" := VPrim (JS.PStr "grey")]>
                   (<["weight" := VPrim (JS.PNum 2)]> ∅)]>
  (<[options_ref := <["radius" := VPrim (JS.PNum 5)]> ∅]> ∅).

Definition hideout_with (classes colorscale : list JS.prim)
    (color_dict : gmap string JS.prim) : Hideout.t :=
  {| Hideout.classes := classes;
     Hideout.colorscale := colorscale;
     Hideout.style := style_ref;
     Hideout.colorProp := "trend_class";
     Hideout.circleOptions := options_ref;
     Hideout.color_dict := color_dict;
     Hideout.min := JS.PNum 0;
     Hideout.max := JS.PNum 10 |}.

(** color_dict = {"X":"#111","Y":"#222"}, domain [0, 10]. *)
Definition make_hideout (classes colorscale : list JS.prim) : Hideout.t :=
  hideout_with classes colorscale
    (<["X" := JS.PStr "#111"]> (<["Y" := JS.PStr "#222"]> ∅)).

(** classes = [1], color_dict = {"1":"#333"}. *)
Definition numbered : context :=
  {| hideout := hideout_with [JS.PNum 1] [JS.PStr "red"]
                  (<["1" := JS.PStr "#333"]> ∅) |}.

(** classes = ["A","B"], colorscale = ["red","blue"]. *)
Definition two_classes : context :=
  {| hideout := make_hideout [JS.PStr "A"; JS.PStr "B"]
                             [JS.PStr "red"; JS.PStr "blue"] |}.

(** A class listed twice. *)
Definition repeated_class : context :=
  {| hideout := make_hideout [JS.PStr "A"; JS.PStr "B"; JS.PStr "A"]
                             [JS.PStr "red"; JS.PStr "blue"; JS.PStr "green"] |}.

(** More classes than colours. *)
Definition short_colorscale : context :=
  {| hideout := make_hideout [JS.PStr "A"; JS.PStr "B"] [JS.PStr "red"] |}.

Definition with_class (v : JS.prim) : feature :=
  {| properties := <["trend_class" := v]> ∅ |}.

Definition somewhere : Leaflet.latlng :=
  {| Leaflet.lat := 45.5%float; Leaflet.lng := 9.25%float |}.

Definition no_tooltip : Leaflet.layer := {| Leaflet.tooltip := None |}.

(** A measurement point with mean_velocity = 3.456. *)
Definition point : feature :=
  {| properties :=
       <["pid" := JS.PStr "10Z7aBcDeF"]>
       (<["mean_velocity" := JS.PNum 3.456]>
       (<["mp_label_prob" := JS.PNum 0.875]>
       (<["trend_class" := JS.PStr "Y"]>
       (<["trend_subclass" := JS.PStr "linear"]> ∅)))) |}.

(** An aggregate with stable_prop = 0.5. *)
Definition aggregate : feature :=
  {| properties :=
       <["n_ada_points" := JS.PNum 12]>
       (<["mean_velocity" := JS.PNum (-2.5)]>
       (<["stable_prop" := JS.PNum 0.5]>
       (<["label_prob" := JS.PNum 0.75]>
       (<["ada_major_class" := JS.PStr "A"]>
       (<["ada_major_subclass" := JS.PStr "B"]> ∅))))) |}.

(** A reading of two colour names. *)
Definition parse (p : JS.prim) : Chroma.rgb :=
  match p with
  | JS.PStr "red" =>
      {| Chroma.red := 255%Q; Chroma.green := 0%Q; Chroma.blue := 0%Q |}
  | _ =>
      {| Chroma.red := 0%Q; Chroma.green := 0%Q; Chroma.blue := 255%Q |}
  end.

(** A feature whose [colorProp] is a number. *)
Definition with_number (x : float) : feature := with_class (JS.PNum x).

(** A feature without properties. *)
Definition bare : feature := {| properties := ∅ |}.

(** classes and colorscale as in [two_classes], and a dictionary that maps
    each class to its colour. *)
Definition consistent : context :=
  {| hideout := hideout_with [JS.PStr "A"; JS.PStr "B"]
                  [JS.PStr "red"; JS.PStr "blue"]
                  (<["A" := JS.PStr "red"]> (<["B" := JS.PStr "blue"]> ∅)) |}.

(** An aggregate without stable_prop. *)
Definition aggregate_without_stable_prop : feature :=
  {| properties :=
       <["n_ada_points" := JS.PNum 12]>
       (<["mean_velocity" := JS.PNum (-2.5)]>
       (<["label_prob" := JS.PNum 0.75]> ∅)) |}.

(** A point that moves by a thousandth of a millimetre per year, downwards. *)
Definition still_point : feature :=
  {| properties :=
       <["pid" := JS.PStr "10Z7aBcDeF"]>
       (<["mean_velocity" := JS.PNum (-0.001)]>
       (<["mp_label_prob" := JS.PNum 0.875]> ∅)) |}.

(** A point with mean_velocity = 1e21. *)
Definition fast_point : feature :=
  {| properties :=
       <["pid" := JS.PStr "10Z7aBcDeF"]>
       (<["mean_velocity" := JS.PNum 1e21]>
       (<["mp_label_prob" := JS.PNum 0.875]>
       (<["trend_class" := JS.PStr "Y"]>
       (<["trend_subclass" := JS.PStr "linear"]> ∅)))) |}.

(** An aggregate with stable_prop = 1e19. *)
Definition big_aggregate : feature :=
  {| properties :=
       <["n_ada_points" := JS.PNum 12]>
       (<["mean_velocity" := JS.PNum (-2.5)]>
       (<["stable_prop" := JS.PNum 1e19]>
       (<["label_prob" := JS.PNum 0.75]>
       (<["ada_major_class" := JS.PStr "A"]>
       (<["ada_major_subclass" := JS.PStr "B"]> ∅))))) |}.

(** What another script left in [window.dashExtensions]. *)
Definition other_scripts : gmap string (gmap string callback) :=
  <["default" := <["function0" := Foreign 1]> (<["function9" := Foreign 2]> ∅)]>
  (<["custom" := <["popup" := Foreign 3]> ∅]> ∅).

End Sample.

(** ** The category colour resolver, [function0] *)

Section Function0.
Variables (value : JS.prim) (classes colorscale : list JS.prim) (style : loc).

Lemma set_property_twice (l : loc) (k : string) (v w : val) (h : heap) :
  set_property l k w (set_property l k v h) = set_property l k w h.
Proof.
  unfold set_property. rewrite alter_alter_eq.
  apply alter_ext. intros o _. simpl. apply insert_insert_eq.
Qed.

Lemma set_property_lookup (l : loc) (k : string) (v : val) (h : heap) (o : obj) :
  h !! l = Some o -> set_property l k v h !! l = Some (<[k := v]> o).
Proof.
  intros Ho. unfold set_property. rewrite lookup_alter_eq, Ho. reflexivity.
Qed.

Lemma set_property_other (l l' : loc) (k : string) (v : val) (h : heap) :
  l <> l' -> set_property l k v h !! l' = h !! l'.
Proof. intros Hne. unfold set_property. by rewrite lookup_alter_ne. Qed.

Lemma fill_color_set (l : loc) (v : val) (h : heap) (o : obj) :
  h !! l = Some o -> fill_color (set_property l "fillColor" v h) l = Some v.
Proof.
  intros Ho. unfold fill_color, deref.
  rewrite (set_property_lookup _ _ _ _ _ Ho). simpl. apply lookup_insert_eq.
Qed.

Lemma matching_indices_S (n : nat) :
  matching_indices value classes (S n) =
  matching_indices value classes n ++
  (if JS.IsLooselyEqual value (get_index classes n) then [n] else []).
Proof.
  unfold matching_indices. rewrite seq_S, filter_app. simpl. f_equal.
  rewrite filter_cons, filter_nil.
  destruct (JS.IsLooselyEqual value (get_index classes n)); by case_decide.
Qed.

Lemma elem_of_matching_indices (n i : nat) :
  i ∈ matching_indices value classes n <->
  (i < n)%nat /\ JS.IsLooselyEqual value (get_index classes i) = true.
Proof.
  unfold matching_indices. rewrite list_elem_of_filter, elem_of_seq.
  split; intros [? ?]; split; auto; lia.
Qed.

(** The store after the first [n] iterations: only the last match counts. *)
Lemma function0_loop (n : nat) (h : heap) :
  fold_left (function0_step value classes colorscale style) (seq 0 n) h =
  match last (matching_indices value classes n) with
  | Some i => set_property style "fillColor" (VPrim (get_index colorscale i)) h
  | None => h
  end.
Proof.
  induction n as [|n IH]; [reflexivity|].
  rewrite seq_S, fold_left_app, IH, matching_indices_S. simpl.
  unfold function0_step at 1.
  destruct (JS.IsLooselyEqual value (get_index classes n)).
  - rewrite last_snoc.
    destruct (last (matching_indices value classes n)); [|reflexivity].
    apply set_property_twice.
  - by rewrite app_nil_r.
Qed.

Lemma last_elem_of {A} (l : list A) (x : A) : last l = Some x -> x ∈ l.
Proof.
  intros Hl. destruct l as [|y l _] using rev_ind; [discriminate|].
  rewrite last_snoc in Hl. injection Hl as ->. set_solver.
Qed.

Lemma last_is_Some {A} (l : list A) (x : A) : x ∈ l -> is_Some (last l).
Proof.
  destruct l as [|y l _] using rev_ind; [by intros ?%elem_of_nil|].
  rewrite last_snoc. eauto.
Qed.
End Function0.

Section Function0Claims.
Variables (feature : feature) (context : context) (h : heap).

Let classes := Hideout.classes (hideout context).
Let colorscale := Hideout.colorscale (hideout context).
Let style := Hideout.style (hideout context).
Let value := get_property (properties feature) (Hideout.colorProp (hideout context)).

Lemma function0_unfold :
  function0 feature context h =
  (style,
   match last_match value classes with
   | Some i => set_property style "fillColor" (VPrim (get_index colorscale i)) h
   | None => h
   end).
Proof. unfold function0, last_match. by rewrite function0_loop. Qed.

(** A match with no match after it is the last match. *)
Lemma last_match_intro (i : nat) :
  (i < length classes)%nat ->
  JS.IsLooselyEqual value (get_index classes i) = true ->
  (forall j, (i < j < length classes)%nat ->
             JS.IsLooselyEqual value (get_index classes j) = false) ->
  last_match value classes = Some i.
Proof.
  unfold last_match. generalize (length classes) as n.
  induction n as [|n IH]; intros Hi Hm Hlast; [lia|].
  rewrite matching_indices_S.
  destruct (decide (i = n)) as [->|Hne].
  - rewrite Hm. apply last_snoc.
  - rewrite (Hlast n) by lia. rewrite app_nil_r.
    apply IH; [lia|done|]. intros j Hj. apply Hlast. lia.
Qed.

Lemma last_match_elim (i : nat) :
  last_match value classes = Some i ->
  (i < length classes)%nat /\
  JS.IsLooselyEqual value (get_index classes i) = true.
Proof. intros Hl%last_elem_of. by apply elem_of_matching_indices. Qed.

Lemma last_match_None :
  (forall i c, classes !! i = Some c -> JS.IsLooselyEqual value c = false) ->
  last_match value classes = None.
Proof.
  intros Hno. destruct (last_match value classes) as [i|] eqn:Hl; [|done].
  apply last_match_elim in Hl as [Hi Hm].
  destruct (lookup_lt_is_Some_2 classes i Hi) as [c Hc].
  unfold get_index in Hm. rewrite Hc in Hm. simpl in Hm.
  rewrite (Hno i c Hc) in Hm. discriminate.
Qed.
End Function0Claims.

(** C1 (as amended): [function0] sets the style's fill colour to
    [colorscale[i]] where [i] is the LAST index at which
    [feature.properties[colorProp] == classes[i]]: the loop does not stop at
    a match, so every later match overwrites the colour. *)
Theorem function0_last_match (feature : feature) (context : context)
    (h : heap) (o : obj) (i : nat) :
  let classes := Hideout.classes (hideout context) in
  let colorscale := Hideout.colorscale (hideout context) in
  let style := Hideout.style (hideout context) in
  let value := get_property (properties feature) (Hideout.colorProp (hideout context)) in
  h !! style = Some o ->
  (i < length classes)%nat ->
  JS.IsLooselyEqual value (get_index classes i) = true ->
  (forall j, (i < j < length classes)%nat ->
             JS.IsLooselyEqual value (get_index classes j) = false) ->
  function0 feature context h =
    (style, set_property style "fillColor" (VPrim (get_index colorscale i)) h) /\
  fill_color (function0 feature context h).2 style =
    Some (VPrim (get_index colorscale i)).
Proof.
  intros classes colorscale style value Ho Hi Hm Hlast.
  rewrite function0_unfold.
  rewrite (last_match_intro feature context i Hi Hm Hlast).
  split; [reflexivity|]. simpl. by apply fill_color_set with o.
Qed.

Lemma function0_last_match_witness :
  fill_color
    (function0 (Sample.with_class (JS.PStr "A")) Sample.repeated_class
       Sample.store).2 Sample.style_ref
  = Some (VPrim (JS.PStr "green")).
Proof.
  refine (proj2 (function0_last_match (Sample.with_class (JS.PStr "A"))
            Sample.repeated_class Sample.store _ 2 _ _ _ _)).
  - reflexivity.
  - simpl. lia.
  - reflexivity.
  - simpl. intros j Hj. lia.
Defined.

(** C1 (as stated) fails: with the class "A" listed at indices 0 and 2 the
    first match is index 0, whose colour is "red", but the style ends up
    with the colour of index 2. *)
Lemma function0_first_match_counterexample :
  let context := Sample.repeated_class in
  let feature := Sample.with_class (JS.PStr "A") in
  first_match
    (get_property (properties feature) (Hideout.colorProp (hideout context)))
    (Hideout.classes (hideout context)) = Some 0%nat /\
  get_index (Hideout.colorscale (hideout context)) 0 = JS.PStr "red" /\
  fill_color (function0 feature context Sample.store).2 Sample.style_ref
    = Some (VPrim (JS.PStr "green")) /\
  fill_color (function0 feature context Sample.store).2 Sample.style_ref
    <> Some (VPrim (get_index (Hideout.colorscale (hideout context)) 0)).
Proof.
  repeat split; try reflexivity.
  vm_compute. discriminate.
Qed.

(** C3: when [feature.properties[colorProp]] loosely equals no entry of
    [classes], [function0] writes nothing: the store, and with it the
    style's fill colour, is as before the call, and the reference returned
    is the style object it was given. *)
Theorem function0_no_match (feature : feature) (context : context) (h : heap) :
  let classes := Hideout.classes (hideout context) in
  let style := Hideout.style (hideout context) in
  let value := get_property (properties feature) (Hideout.colorProp (hideout context)) in
  (forall i c, classes !! i = Some c -> JS.IsLooselyEqual value c = false) ->
  function0 feature context h = (style, h) /\
  fill_color (function0 feature context h).2 style = fill_color h style.
Proof.
  intros classes style value Hno.
  rewrite function0_unfold, (last_match_None feature context Hno). done.
Qed.

Lemma function0_no_match_witness :
  function0 (Sample.with_class (JS.PStr "C")) Sample.two_classes Sample.store
  = (Sample.style_ref, Sample.store).
Proof.
  refine (proj1 (function0_no_match (Sample.with_class (JS.PStr "C"))
            Sample.two_classes Sample.store _)).
  intros [|[|i]] c; simpl; intros Hc; inversion Hc; reflexivity.
Defined.

(** C4: when [feature.properties[colorProp]] loosely equals [classes[i]]
    for exactly one index [i], the fill colour [function0] resolves is
    [colorscale[i]]. *)
Theorem function0_unique_match (feature : feature) (context : context)
    (h : heap) (o : obj) (i : nat) :
  let classes := Hideout.classes (hideout context) in
  let colorscale := Hideout.colorscale (hideout context) in
  let style := Hideout.style (hideout context) in
  let value := get_property (properties feature) (Hideout.colorProp (hideout context)) in
  h !! style = Some o ->
  (i < length classes)%nat ->
  JS.IsLooselyEqual value (get_index classes i) = true ->
  (forall j, (j < length classes)%nat -> j <> i ->
             JS.IsLooselyEqual value (get_index classes j) = false) ->
  fill_color (function0 feature context h).2 style =
    Some (VPrim (get_index colorscale i)).
Proof.
  intros classes colorscale style value Ho Hi Hm Hunique.
  rewrite function0_unfold.
  rewrite (last_match_intro feature context i Hi Hm).
  - simpl. by apply fill_color_set with o.
  - intros j Hj. apply Hunique; unfold classes in *; lia.
Qed.

(** The scenario of C4: classes = ["A","B"], colorscale = ["red","blue"],
    property value "B": the resolved colour is "blue". *)
Lemma function0_unique_match_witness :
  fill_color
    (function0 (Sample.with_class (JS.PStr "B")) Sample.two_classes
       Sample.store).2 Sample.style_ref
  = Some (VPrim (JS.PStr "blue")).
Proof.
  refine (function0_unique_match (Sample.with_class (JS.PStr "B"))
            Sample.two_classes Sample.store _ 1 _ _ _ _).
  - reflexivity.
  - simpl. lia.
  - reflexivity.
  - intros [|[|j]] Hj Hne; simpl in Hj; [reflexivity|congruence|lia].
Defined.

(** C10: when the value has a match and every match is at an index at or
    beyond the length of [colorscale], [function0] stores [undefined] as the
    style's fill colour (the read of [colorscale] is out of range): the
    colour is neither left as it was nor is an error raised. *)
Theorem function0_short_colorscale (feature : feature) (context : context)
    (h : heap) (o : obj) (i : nat) :
  let classes := Hideout.classes (hideout context) in
  let colorscale := Hideout.colorscale (hideout context) in
  let style := Hideout.style (hideout context) in
  let value := get_property (properties feature) (Hideout.colorProp (hideout context)) in
  h !! style = Some o ->
  (i < length classes)%nat ->
  JS.IsLooselyEqual value (get_index classes i) = true ->
  (forall j, (j < length classes)%nat ->
             JS.IsLooselyEqual value (get_index classes j) = true ->
             (length colorscale <= j)%nat) ->
  function0 feature context h =
    (style, set_property style "fillColor" (VPrim JS.PUndefined) h) /\
  fill_color (function0 feature context h).2 style = Some (VPrim JS.PUndefined).
Proof.
  cbv zeta. intros Ho Hi Hm Hbeyond.
  rewrite function0_unfold.
  destruct (last_is_Some _ i (proj2 (elem_of_matching_indices _ _ _ _)
              (conj Hi Hm))) as [k Hk].
  fold (last_match (get_property (properties feature)
          (Hideout.colorProp (hideout context)))
          (Hideout.classes (hideout context))) in Hk.
  rewrite Hk. apply last_match_elim in Hk as [Hk Hmk].
  assert (get_index (Hideout.colorscale (hideout context)) k = JS.PUndefined) as ->.
  { unfold get_index. rewrite lookup_ge_None_2; [done|]. by apply Hbeyond. }
  split; [reflexivity|]. simpl. by apply fill_color_set with o.
Qed.

Lemma function0_short_colorscale_witness :
  fill_color
    (function0 (Sample.with_class (JS.PStr "B")) Sample.short_colorscale
       Sample.store).2 Sample.style_ref
  = Some (VPrim JS.PUndefined).
Proof.
  refine (proj2 (function0_short_colorscale (Sample.with_class (JS.PStr "B"))
            Sample.short_colorscale Sample.store _ 1 _ _ _ _)).
  - reflexivity.
  - simpl. lia.
  - reflexivity.
  - intros [|[|j]] Hj Hm;
      [vm_compute in Hm; discriminate | simpl; lia | simpl in Hj; lia].
Defined.

(** ** The marker-constructing resolvers, [function1] and [function4] *)

Lemma set_property_insert (l : loc) (k : string) (v : val) (h : heap) (o : obj) :
  h !! l = Some o -> set_property l k v h = <[l := <[k := v]> o]> h.
Proof. intros Ho. unfold set_property. by apply alter_alt_Some. Qed.

Lemma deref_set_property (l : loc) (k : string) (v : val) (h : heap) (o : obj) :
  h !! l = Some o -> deref (set_property l k v h) l = <[k := v]> o.
Proof. intros Ho. unfold deref. by rewrite (set_property_lookup l k v h o Ho). Qed.

(** C2 (as amended): [function1] and [function4] write the computed fill
    colour into the caller's [circleOptions] object itself, and build the
    marker from that object: the marker is configured with the base options
    plus the fill colour, the caller's object is mutated in its [fillColor]
    field, and nothing else in the store changes. *)
Theorem marker_variants_write_circleOptions (parse : JS.prim -> Chroma.rgb)
    (feature : feature) (latlng : Leaflet.latlng) (context : context)
    (h : heap) (o : obj) :
  let circleOptions := Hideout.circleOptions (hideout context) in
  let value := get_property (properties feature) (Hideout.colorProp (hideout context)) in
  let color1 :=
    VPrim (get_property (Hideout.color_dict (hideout context)) (JS.ToPropertyKey value)) in
  let color4 := VColor (csc parse context value) in
  h !! circleOptions = Some o ->
  function1 feature latlng context h =
    (Leaflet.circleMarker latlng (<["fillColor" := color1]> o),
     <[circleOptions := <["fillColor" := color1]> o]> h) /\
  function4 parse feature latlng context h =
    (Leaflet.circleMarker latlng (<["fillColor" := color4]> o),
     <[circleOptions := <["fillColor" := color4]> o]> h).
Proof.
  cbv zeta. intros Ho. unfold function1, function4.
  rewrite !(deref_set_property _ _ _ _ _ Ho).
  by rewrite !(set_property_insert _ _ _ _ _ Ho).
Qed.

Lemma marker_variants_write_circleOptions_witness :
  (function1 (Sample.with_class (JS.PStr "Y")) Sample.somewhere
     Sample.two_classes Sample.store).2 !! Sample.options_ref
  = Some (<["fillColor" := VPrim (JS.PStr "#222")]>
            (<["radius" := VPrim (JS.PNum 5)]> ∅)).
Proof.
  rewrite (proj1 (marker_variants_write_circleOptions Sample.parse
             (Sample.with_class (JS.PStr "Y")) Sample.somewhere
             Sample.two_classes Sample.store
             (<["radius" := VPrim (JS.PNum 5)]> ∅) eq_refl)).
  reflexivity.
Defined.

(** C2 (as stated) fails: after [function1] the [circleOptions] object of
    the caller has a [fillColor] it did not have before. *)
Lemma function1_mutates_circleOptions_counterexample :
  let h := Sample.store in
  let h' := (function1 (Sample.with_class (JS.PStr "Y")) Sample.somewhere
               Sample.two_classes h).2 in
  let circleOptions := Hideout.circleOptions (hideout Sample.two_classes) in
  fill_color h circleOptions = None /\
  fill_color h' circleOptions = Some (VPrim (JS.PStr "#222")) /\
  h' !! circleOptions <> h !! circleOptions.
Proof.
  cbv zeta. repeat split; try reflexivity.
  intros Heq.
  apply (f_equal (fun o => o ≫= (.!! "fillColor"))) in Heq.
  vm_compute in Heq. discriminate.
Qed.

(** C5 (as amended): the marker [function1] builds has as fill colour
    [color_dict[value]] for [value = feature.properties[colorProp]], a
    lookup of the key itself, without [==]: the entry of [color_dict] under
    that key if it has one; else the member inherited from
    [Object.prototype] if the key names one ("constructor", "toString",
    ...); and [undefined] only when it names none.  The key of a string
    value is the string itself. *)
Theorem function1_color_dict (feature : feature) (latlng : Leaflet.latlng)
    (context : context) (h : heap) (o : obj) :
  let color_dict := Hideout.color_dict (hideout context) in
  let value := get_property (properties feature) (Hideout.colorProp (hideout context)) in
  let key := JS.ToPropertyKey value in
  let fill :=
    Leaflet.marker_options (function1 feature latlng context h).1 !! "fillColor" in
  h !! Hideout.circleOptions (hideout context) = Some o ->
  fill = Some (VPrim (get_property color_dict key)) /\
  (forall c, color_dict !! key = Some c -> fill = Some (VPrim c)) /\
  (forall b, color_dict !! key = None -> JS.Object_prototype !! key = Some b ->
     fill = Some (VPrim (JS.PObject b))) /\
  (color_dict !! key = None -> JS.Object_prototype !! key = None ->
     fill = Some (VPrim JS.PUndefined)) /\
  (forall s, value = JS.PStr s -> key = s).
Proof.
  cbv zeta. intros Ho. unfold function1. cbn [fst].
  unfold Leaflet.circleMarker. cbn [Leaflet.marker_options].
  rewrite (deref_set_property _ _ _ _ _ Ho), lookup_insert_eq.
  split; [done|].
  split; [|split; [|split]]; [| | |by intros s ->];
    generalize (JS.ToPropertyKey
                  (get_property (properties feature)
                     (Hideout.colorProp (hideout context)))) as key;
    intros key; unfold get_property.
  - by intros c ->.
  - by intros b -> ->.
  - by intros -> ->.
Qed.

(** C5 (as stated) fails: "constructor" is not a key of
    color_dict = {"X":"#111","Y":"#222"}, and yet the marker built for the
    property value "constructor" gets a fill colour that is not [undefined]:
    the function [Object], which [color_dict] inherits. *)
Lemma function1_inherited_key_counterexample :
  let context := Sample.two_classes in
  let fill :=
    Leaflet.marker_options
      (function1 (Sample.with_class (JS.PStr "constructor")) Sample.somewhere
         context Sample.store).1 !! "fillColor" in
  Hideout.color_dict (hideout context) !! "constructor" = None /\
  fill = Some (VPrim (JS.PObject JS.BObject)) /\
  fill <> Some (VPrim JS.PUndefined).
Proof.
  cbv zeta. split; [reflexivity|]. split; [vm_compute; reflexivity|].
  vm_compute. discriminate.
Qed.

(** The scenario of C5: color_dict = {"X":"#111","Y":"#222"}, property
    value "Y": the marker fill colour is "#222". *)
Lemma function1_color_dict_witness :
  Leaflet.marker_options
    (function1 (Sample.with_class (JS.PStr "Y")) Sample.somewhere
       Sample.two_classes Sample.store).1 !! "fillColor"
  = Some (VPrim (JS.PStr "#222")).
Proof.
  exact (proj1 (function1_color_dict (Sample.with_class (JS.PStr "Y"))
           Sample.somewhere Sample.two_classes Sample.store
           (<["radius" := VPrim (JS.PNum 5)]> ∅) eq_refl)).
Defined.

(** The key is the string form of the value and is looked up as it is: the
    number 1 finds the key "1"; the string "1.0", which [==] equates with the
    class 1 in [function0], finds nothing. *)
Lemma function1_key_lookup_examples :
  let fill value :=
    Leaflet.marker_options
      (function1 (Sample.with_class value) Sample.somewhere Sample.numbered
         Sample.store).1 !! "fillColor" in
  fill (JS.PNum 1) = Some (VPrim (JS.PStr "#333")) /\
  fill (JS.PStr "1.0") = Some (VPrim JS.PUndefined) /\
  fill_color
    (function0 (Sample.with_class (JS.PStr "1.0")) Sample.numbered
       Sample.store).2 Sample.style_ref = Some (VPrim (JS.PStr "red")).
Proof. cbv zeta. repeat split; vm_compute; reflexivity. Qed.

(** ** The tooltip formatters, [function2] and [function3] *)

Section Strings.
Implicit Types s t u : string.

Lemma append_cons c s t : String c s +:+ t = String c (s +:+ t).
Proof. reflexivity. Qed.

Lemma append_assoc s t u : (s +:+ t) +:+ u = s +:+ t +:+ u.
Proof.
  induction s as [|c s IH]; [reflexivity|]. by rewrite !append_cons, IH.
Qed.

Lemma length_append s t :
  String.length (s +:+ t) = (String.length s + String.length t)%nat.
Proof.
  induction s as [|c s IH]; [reflexivity|]. rewrite append_cons. cbn.
  by rewrite IH.
Qed.

Lemma all_decimal_digits_append s t :
  all_decimal_digits (s +:+ t) = all_decimal_digits s && all_decimal_digits t.
Proof.
  induction s as [|c s IH]; [reflexivity|]. rewrite append_cons. cbn.
  by rewrite IH, andb_assoc.
Qed.

Lemma length_zeros n : String.length (JS.zeros n) = n.
Proof. induction n as [|n IH]; [reflexivity|]. cbn. by rewrite IH. Qed.

Lemma all_decimal_digits_zeros n : all_decimal_digits (JS.zeros n) = true.
Proof. induction n as [|n IH]; [reflexivity|exact IH]. Qed.

Lemma str_take_drop n s : JS.str_take n s +:+ JS.str_drop n s = s.
Proof.
  revert s. induction n as [|n IH]; intros [|c s]; try reflexivity.
  cbn. by rewrite append_cons, IH.
Qed.

Lemma length_str_drop n s :
  String.length (JS.str_drop n s) = (String.length s - n)%nat.
Proof.
  revert s. induction n as [|n IH]; intros [|c s]; try reflexivity.
  cbn. apply IH.
Qed.

Lemma str_take_nonempty n s : (0 < n)%nat -> s <> "" -> JS.str_take n s <> "".
Proof. destruct n, s; intros; [lia|lia|done|discriminate]. Qed.

Lemma all_decimal_digits_take_drop n s :
  all_decimal_digits s = true ->
  all_decimal_digits (JS.str_take n s) = true /\
  all_decimal_digits (JS.str_drop n s) = true.
Proof.
  intros Hs. rewrite <- (str_take_drop n s), all_decimal_digits_append in Hs.
  by apply andb_true_iff in Hs.
Qed.

Lemma is_decimal_digit_digit_char d :
  0 <= d <= 9 -> is_decimal_digit (JS.digit_char d) = true.
Proof.
  intros Hd.
  assert (d = 0 \/ d = 1 \/ d = 2 \/ d = 3 \/ d = 4 \/ d = 5 \/ d = 6 \/
          d = 7 \/ d = 8 \/ d = 9) as Hcases by lia.
  repeat (destruct Hcases as [->|Hcases]; [reflexivity|]). by subst.
Qed.

Lemma decimal_digits_go_shape fuel n acc :
  all_decimal_digits acc = true ->
  (acc <> "" \/ fuel <> O) ->
  all_decimal_digits (JS.decimal_digits_go fuel n acc) = true /\
  JS.decimal_digits_go fuel n acc <> "".
Proof.
  revert n acc. induction fuel as [|fuel IH]; intros n acc Hacc Hne.
  - cbn. split; [done|]. by destruct Hne.
  - cbn.
    assert (all_decimal_digits (String (JS.digit_char (n mod 10)) acc) = true)
      as Hacc'.
    { cbn. rewrite Hacc, is_decimal_digit_digit_char; [done|].
      pose proof (Z.mod_pos_bound n 10). lia. }
    destruct (n / 10 =? 0); [done|].
    apply IH; [done|by left].
Qed.

Lemma decimal_digits_shape n :
  all_decimal_digits (JS.decimal_digits n) = true /\ JS.decimal_digits n <> "".
Proof. apply decimal_digits_go_shape; [reflexivity|by right]. Qed.

(** Inserting the point leaves at least one digit before it and exactly
    [f] digits after it. *)
Lemma insert_point_fixed_notation m f :
  f <> O -> m <> "" -> all_decimal_digits m = true ->
  exists whole frac,
    JS.insert_point m f = whole +:+ "." +:+ frac /\
    whole <> "" /\
    all_decimal_digits whole = true /\
    all_decimal_digits frac = true /\
    String.length frac = f.
Proof.
  intros Hf Hm Hdigits. unfold JS.insert_point.
  destruct f as [|f]; [done|].
  set (m' := if (String.length m <=? S f)%nat
             then JS.zeros (S f + 1 - String.length m) +:+ m else m).
  assert (all_decimal_digits m' = true /\ (S f < String.length m')%nat)
    as [Hdigits' Hlen].
  { unfold m'. destruct (Nat.leb_spec (String.length m) (S f)).
    - rewrite all_decimal_digits_append, all_decimal_digits_zeros, Hdigits.
      rewrite length_append, length_zeros. split; [done|lia].
    - split; [done|lia]. }
  destruct (all_decimal_digits_take_drop (String.length m' - S f) m' Hdigits')
    as [Htake Hdrop].
  eexists _, _. split; [reflexivity|].
  repeat split; [|done|done|].
  - apply str_take_nonempty; [lia|]. intros ->. cbn in Hlen. lia.
  - rewrite length_str_drop. lia.
Qed.
End Strings.

(** In its fixed-point range [toFixed] prints exactly [f] decimal places. *)
Lemma toFixed_fixed_notation (x : float) (f : nat) :
  f <> O -> fixed_range x = true -> fixed_notation f (JS.toFixed x f).
Proof.
  intros Hf. unfold fixed_range, JS.toFixed, fixed_notation.
  destruct (Prim2SF x) as [sg|sg| |sg m e]; try discriminate.
  - intros _.
    destruct (insert_point_fixed_notation "0" f Hf) as (w & fr & -> & ?);
      [done|done|].
    exists "", w, fr. split; [done|]. split; [by left|done].
  - intros Hrange%negb_true_iff. rewrite Hrange.
    destruct (decimal_digits_shape
                (JS.nearest_scaled (JS.Q_of_finite m e) (Z.of_nat f)))
      as [Hdigits Hne].
    destruct (insert_point_fixed_notation _ f Hf Hne Hdigits)
      as (w & fr & -> & ?).
    exists (if sg then "-" else ""), w, fr.
    split; [done|]. split; [destruct sg; auto|done].
Qed.

Section Contains.
Implicit Types s t u : string.

Lemma contains_skip a t s : contains t s -> contains (a +:+ t) s.
Proof.
  intros (before & after & ->). exists (a +:+ before), after.
  by rewrite append_assoc.
Qed.

Lemma contains_prefix1 s u : contains (s +:+ u) s.
Proof. by exists "", u. Qed.

Lemma contains_prefix2 s t u : contains (s +:+ t +:+ u) (s +:+ t).
Proof. exists "", u. by rewrite append_assoc. Qed.
End Contains.

Ltac find_substring :=
  repeat first
    [ apply contains_prefix2 | apply contains_prefix1 | apply contains_skip ].

(** Without a numeric [mean_velocity] the formatter raises a TypeError
    and binds no tooltip. *)
Lemma function2_not_a_number (feature : feature) (layer : Leaflet.layer)
    (context : context) :
  (forall x, get_property (properties feature) "mean_velocity" <> JS.PNum x) ->
  function2 feature layer context = Throw TypeError.
Proof.
  intros Hno. unfold function2, function2_text.
  destruct (get_property (properties feature) "mean_velocity") as [| | |x| |]
    eqn:Hmv; try reflexivity.
  by destruct (Hno x).
Qed.

(** ** The colour scale *)

Section ChromaFacts.
#[local] Open Scope Q_scope.
Import Chroma.

Lemma clamp01_range t : 0 <= clamp01 t <= 1.
Proof.
  unfold clamp01.
  destruct (Qle_bool t 0) eqn:H0; [lra|].
  destruct (Qle_bool 1 t) eqn:H1; [lra|].
  apply not_true_iff_false in H0, H1. rewrite Qle_bool_iff in H0, H1. lra.
Qed.

Lemma clamp01_mono t u : t <= u -> clamp01 t <= clamp01 u.
Proof.
  intros Htu. unfold clamp01.
  destruct (Qle_bool t 0) eqn:Ht0, (Qle_bool u 0) eqn:Hu0;
    destruct (Qle_bool 1 t) eqn:Ht1, (Qle_bool 1 u) eqn:Hu1;
    repeat match goal with
      | H : Qle_bool _ _ = true |- _ => apply Qle_bool_iff in H
      | H : Qle_bool _ _ = false |- _ =>
          apply not_true_iff_false in H; rewrite Qle_bool_iff in H
      end; lra.
Qed.

Lemma clamp01_low t : t <= 0 -> clamp01 t = 0.
Proof.
  intros Ht. unfold clamp01.
  by rewrite (proj2 (Qle_bool_iff t 0) Ht).
Qed.

Lemma clamp01_high t : 1 <= t -> clamp01 t = 1.
Proof.
  intros Ht. unfold clamp01.
  destruct (Qle_bool t 0) eqn:H0.
  - apply Qle_bool_iff in H0. lra.
  - by rewrite (proj2 (Qle_bool_iff 1 t) Ht).
Qed.

Lemma clamp01_inside t : 0 <= t <= 1 -> clamp01 t == t.
Proof.
  intros Ht. unfold clamp01.
  destruct (Qle_bool t 0) eqn:H0.
  - apply Qle_bool_iff in H0. lra.
  - destruct (Qle_bool 1 t) eqn:H1; [|reflexivity].
    apply Qle_bool_iff in H1. lra.
Qed.

(** The linear map of the domain: order-preserving, 0 at [lo], 1 at [hi]. *)
Lemma linear_map_mono lo hi p q :
  lo < hi -> p <= q -> (p - lo) / (hi - lo) <= (q - lo) / (hi - lo).
Proof.
  intros Hd Hpq. unfold Qdiv. apply Qmult_le_compat_r; [lra|].
  apply Qlt_le_weak, Qinv_lt_0_compat. lra.
Qed.

Lemma linear_map_lo lo hi : lo < hi -> (lo - lo) / (hi - lo) == 0.
Proof. intros Hd. field. lra. Qed.

Lemma linear_map_hi lo hi : lo < hi -> (hi - lo) / (hi - lo) == 1.
Proof. intros Hd. field. lra. Qed.

Lemma position_lo lo hi : lo < hi -> position lo hi (Finite lo) = 0.
Proof. intros Hd. cbn. apply clamp01_low. rewrite linear_map_lo by done. lra. Qed.

Lemma position_hi lo hi : lo < hi -> position lo hi (Finite hi) = 1.
Proof. intros Hd. cbn. apply clamp01_high. rewrite linear_map_hi by done. lra. Qed.

Lemma position_below lo hi v :
  lo < hi -> xlt v (Finite lo) -> position lo hi v = 0.
Proof.
  intros Hd Hv. destruct v as [|q|]; [reflexivity| |destruct Hv].
  cbn in *. apply clamp01_low.
  rewrite <- (linear_map_lo lo hi Hd). apply linear_map_mono; lra.
Qed.

Lemma position_above lo hi v :
  lo < hi -> xlt (Finite hi) v -> position lo hi v = 1.
Proof.
  intros Hd Hv. destruct v as [|q|]; [destruct Hv| |reflexivity].
  cbn in *. apply clamp01_high.
  rewrite <- (linear_map_hi lo hi Hd). apply linear_map_mono; lra.
Qed.

Lemma position_range lo hi v : 0 <= position lo hi v <= 1.
Proof. destruct v; cbn; [lra|apply clamp01_range|lra]. Qed.

Lemma position_mono lo hi p q :
  lo < hi -> p <= q ->
  position lo hi (Finite p) <= position lo hi (Finite q).
Proof. intros Hd Hpq. cbn. by apply clamp01_mono, linear_map_mono. Qed.

Lemma lerp_correct a b t : lerp a b t == a + t * (b - a).
Proof. apply Qred_correct. Qed.

Lemma lerp_moves_towards a b t u :
  0 <= t -> t <= u -> u <= 1 -> moves_towards a b (lerp a b t) (lerp a b u).
Proof.
  intros H0 Htu H1. unfold moves_towards. rewrite !lerp_correct.
  split; intros Hab; (split; [|split]); nra.
Qed.

Lemma mix_moves_towards c d t u :
  0 <= t -> t <= u -> u <= 1 ->
  rgb_moves_towards c d (mix c d t) (mix c d u).
Proof.
  intros. unfold rgb_moves_towards. cbn.
  split; [|split]; by apply lerp_moves_towards.
Qed.

Lemma mix_start c d t : t == 0 -> rgb_eq (mix c d t) c.
Proof.
  intros Ht. unfold rgb_eq. cbn.
  split; [|split]; rewrite lerp_correct, Ht; ring.
Qed.

Lemma mix_end c d t : t == 1 -> rgb_eq (mix c d t) d.
Proof.
  intros Ht. unfold rgb_eq. cbn.
  split; [|split]; rewrite lerp_correct, Ht; ring.
Qed.

(** Two stops: one segment, whose parameter is the position itself. *)
Lemma interpolate_two_stops c d t :
  interpolate [c; d] t = Some (mix c d (t * 1 - 0)).
Proof.
  unfold interpolate. cbn [length].
  replace (Z.max 0 (Z.min (Qfloor (t * inject_Z (Z.of_nat 2 - 1)))
                          (Z.of_nat 2 - 1 - 1))) with 0%Z by lia.
  reflexivity.
Qed.

(** Position 0 is the first stop. *)
Lemma interpolate_first c stops :
  exists col, interpolate (c :: stops) 0 = Some col /\ rgb_eq col c.
Proof.
  destruct stops as [|d stops].
  - eexists. split; [reflexivity|]. by apply mix_start.
  - unfold interpolate.
    set (segments := (Z.of_nat (length (c :: d :: stops)) - 1)%Z).
    assert (Qfloor (0 * inject_Z segments) = 0%Z) as ->.
    { assert (0 * inject_Z segments == 0) as E by ring.
      by rewrite (Qfloor_comp _ _ E). }
    assert (1 <= segments)%Z by (unfold segments; cbn [length]; lia).
    replace (Z.max 0 (Z.min 0 (segments - 1))) with 0%Z by lia.
    eexists. split; [reflexivity|]. apply mix_start. ring.
Qed.

(** Position 1 is the last stop. *)
Lemma interpolate_last stops d :
  last stops = Some d ->
  exists col, interpolate stops 1 = Some col /\ rgb_eq col d.
Proof.
  intros Hlast. destruct stops as [|c [|c' stops]]; [discriminate| |].
  - injection Hlast as ->. eexists. split; [reflexivity|]. by apply mix_end.
  - unfold interpolate.
    set (l := c :: c' :: stops) in *.
    set (segments := (Z.of_nat (length l) - 1)%Z).
    assert (2 <= length l)%nat as Hlen by (unfold l; cbn [length]; lia).
    assert (Qfloor (1 * inject_Z segments) = segments) as ->.
    { assert (1 * inject_Z segments == inject_Z segments) as E by ring.
      rewrite (Qfloor_comp _ _ E). apply Qfloor_Z. }
    replace (Z.max 0 (Z.min segments (segments - 1))) with (segments - 1)%Z
      by (unfold segments; lia).
    replace (S (Z.to_nat (segments - 1))) with (pred (length l))
      by (unfold segments; lia).
    rewrite <- last_lookup, Hlast.
    destruct (lookup_lt_is_Some_2 l (Z.to_nat (segments - 1))) as [b ->];
      [unfold segments; lia|].
    eexists. split; [reflexivity|]. apply mix_end.
    unfold Z.sub. rewrite inject_Z_plus. change (inject_Z (- (1))) with (- (1)).
    ring.
Qed.
End ChromaFacts.

(** ** The continuous colour resolvers, [function4] and [function5] *)

Section ContinuousClaims.
#[local] Open Scope Q_scope.
Import Chroma.
Variables (parse : JS.prim -> rgb) (context : context) (lo hi : Q).

Hypothesis min_finite : finite_of_prim (Hideout.min (hideout context)) = Some lo.
Hypothesis max_finite : finite_of_prim (Hideout.max (hideout context)) = Some hi.

Lemma finite_of_prim_xnum (p : JS.prim) (q : Q) :
  finite_of_prim p = Some q -> xnum_of_prim p = Some (Finite q).
Proof.
  unfold finite_of_prim.
  destruct (xnum_of_prim p) as [[|q'|]|]; try discriminate. by intros [= ->].
Qed.

Lemma csc_position (p : JS.prim) (v : xnum) :
  xnum_of_prim p = Some v ->
  csc parse context p =
  interpolate (parse <$> Hideout.colorscale (hideout context)) (position lo hi v).
Proof.
  intros Hv. unfold csc, scale. by rewrite min_finite, max_finite, Hv.
Qed.

Lemma csc_below (p : JS.prim) (v : xnum) :
  lo < hi -> xnum_of_prim p = Some v -> xlt v (Finite lo) ->
  csc parse context p = csc parse context (Hideout.min (hideout context)).
Proof.
  intros Hd Hv Hlt.
  rewrite (csc_position p v Hv).
  rewrite (csc_position _ _ (finite_of_prim_xnum _ _ min_finite)).
  by rewrite position_below, position_lo.
Qed.

Lemma csc_above (p : JS.prim) (v : xnum) :
  lo < hi -> xnum_of_prim p = Some v -> xlt (Finite hi) v ->
  csc parse context p = csc parse context (Hideout.max (hideout context)).
Proof.
  intros Hd Hv Hlt.
  rewrite (csc_position p v Hv).
  rewrite (csc_position _ _ (finite_of_prim_xnum _ _ max_finite)).
  by rewrite position_above, position_hi.
Qed.

Lemma csc_min_first_stop (c : JS.prim) :
  lo < hi -> head (Hideout.colorscale (hideout context)) = Some c ->
  exists col,
    csc parse context (Hideout.min (hideout context)) = Some col /\
    rgb_eq col (parse c).
Proof.
  intros Hd Hc.
  rewrite (csc_position _ _ (finite_of_prim_xnum _ _ min_finite)).
  rewrite position_lo by done.
  destruct (Hideout.colorscale (hideout context)) as [|c' stops];
    [discriminate|].
  injection Hc as ->. apply interpolate_first.
Qed.

Lemma csc_max_last_stop (d : JS.prim) :
  lo < hi -> last (Hideout.colorscale (hideout context)) = Some d ->
  exists col,
    csc parse context (Hideout.max (hideout context)) = Some col /\
    rgb_eq col (parse d).
Proof.
  intros Hd Hlast.
  rewrite (csc_position _ _ (finite_of_prim_xnum _ _ max_finite)).
  rewrite position_hi by done.
  apply interpolate_last. by rewrite fmap_last, Hlast.
Qed.
End ContinuousClaims.

(** C6: with a domain [min < max] and a colour scale that has stops, a
    value below [min] makes [function4] and [function5] store, as the fill
    colour read back from the marker, from the circle options and from the
    style, the colour the scale has at [min], which is its first stop; a
    value above [max] the colour it has at [max], its last stop. *)
Theorem continuous_resolvers_clamp (parse : JS.prim -> Chroma.rgb)
    (feature : feature) (latlng : Leaflet.latlng) (context : context)
    (h : heap) (o o' : obj) (lo hi : Q) (v : Chroma.xnum)
    (first_stop last_stop : JS.prim) :
  let hd := hideout context in
  let value := get_property (properties feature) (Hideout.colorProp hd) in
  let after5 := (function5 parse feature context h).2 in
  let marker := (function4 parse feature latlng context h).1 in
  let after4 := (function4 parse feature latlng context h).2 in
  let stored (endpoint : JS.prim) (stop : JS.prim) :=
    exists col : Chroma.rgb,
      csc parse context endpoint = Some col /\
      Chroma.rgb_eq col (parse stop) /\
      fill_color after5 (Hideout.style hd) = Some (VColor (Some col)) /\
      Leaflet.marker_options marker !! "fillColor" = Some (VColor (Some col)) /\
      fill_color after4 (Hideout.circleOptions hd) = Some (VColor (Some col)) in
  h !! Hideout.style hd = Some o ->
  h !! Hideout.circleOptions hd = Some o' ->
  Chroma.finite_of_prim (Hideout.min hd) = Some lo ->
  Chroma.finite_of_prim (Hideout.max hd) = Some hi ->
  Qlt lo hi ->
  Chroma.xnum_of_prim value = Some v ->
  head (Hideout.colorscale hd) = Some first_stop ->
  last (Hideout.colorscale hd) = Some last_stop ->
  (Chroma.xlt v (Chroma.Finite lo) -> stored (Hideout.min hd) first_stop) /\
  (Chroma.xlt (Chroma.Finite hi) v -> stored (Hideout.max hd) last_stop).
Proof.
  cbv zeta. intros Ho Ho' Hmin Hmax Hd Hv Hfirst Hlast.
  unfold function5, function4, Leaflet.circleMarker.
  cbn [fst snd Leaflet.marker_options].
  rewrite (deref_set_property _ _ _ _ _ Ho'), lookup_insert_eq.
  rewrite (fill_color_set _ _ _ _ Ho), (fill_color_set _ _ _ _ Ho').
  split; intros Hlt.
  - rewrite (csc_below parse context lo hi Hmin Hmax _ v Hd Hv Hlt).
    destruct (csc_min_first_stop parse context lo hi Hmin Hmax first_stop Hd Hfirst)
      as (col & -> & Hcol).
    by exists col.
  - rewrite (csc_above parse context lo hi Hmin Hmax _ v Hd Hv Hlt).
    destruct (csc_max_last_stop parse context lo hi Hmin Hmax last_stop Hd Hlast)
      as (col & -> & Hcol).
    by exists col.
Qed.

Lemma continuous_resolvers_clamp_witness :
  exists col : Chroma.rgb,
    Chroma.rgb_eq col (Sample.parse (JS.PStr "red")) /\
    fill_color
      (function5 Sample.parse (Sample.with_number (-1)%float)
         Sample.two_classes Sample.store).2 Sample.style_ref
    = Some (VColor (Some col)) /\
    Leaflet.marker_options
      (function4 Sample.parse (Sample.with_number (-1)%float) Sample.somewhere
         Sample.two_classes Sample.store).1 !! "fillColor"
    = Some (VColor (Some col)).
Proof.
  destruct (proj1 (continuous_resolvers_clamp Sample.parse
              (Sample.with_number (-1)%float) Sample.somewhere
              Sample.two_classes Sample.store _ _ 0%Q 10%Q
              (Chroma.Finite (-1)%Q) (JS.PStr "red") (JS.PStr "blue")
              eq_refl eq_refl eq_refl eq_refl eq_refl eq_refl eq_refl eq_refl)
              eq_refl)
    as (col & _ & Hcol & H5 & H4 & _).
  exists col. auto.
Defined.

(** C7: with the two stops [c0; c1] and a domain [min < max], the colour
    [function5] resolves moves monotonically from [c0] to [c1] as the value
    grows within [min, max] (channel by channel, staying between the two
    stops); it is [c0] at [min] and [c1] at [max]. *)
Theorem function5_two_stops_monotone (parse : JS.prim -> Chroma.rgb)
    (context : context) (h : heap) (o : obj) (c0 c1 : JS.prim) (lo hi : Q)
    (feature1 feature2 : feature) (q1 q2 : Q) :
  let hd := hideout context in
  let value f := get_property (properties f) (Hideout.colorProp hd) in
  h !! Hideout.style hd = Some o ->
  Hideout.colorscale hd = [c0; c1] ->
  Chroma.finite_of_prim (Hideout.min hd) = Some lo ->
  Chroma.finite_of_prim (Hideout.max hd) = Some hi ->
  Qlt lo hi ->
  Chroma.xnum_of_prim (value feature1) = Some (Chroma.Finite q1) ->
  Chroma.xnum_of_prim (value feature2) = Some (Chroma.Finite q2) ->
  Qle lo q1 -> Qle q1 q2 -> Qle q2 hi ->
  exists x y,
    resolved_color parse feature1 context h = Some x /\
    resolved_color parse feature2 context h = Some y /\
    rgb_moves_towards (parse c0) (parse c1) x y /\
    (Qeq q1 lo -> Chroma.rgb_eq x (parse c0)) /\
    (Qeq q2 hi -> Chroma.rgb_eq y (parse c1)).
Proof.
  cbv zeta. intros Ho Hstops Hmin Hmax Hd Hv1 Hv2 H1 H12 H2.
  unfold resolved_color, function5. cbn [snd].
  rewrite !(fill_color_set _ _ _ _ Ho).
  rewrite (csc_position parse context lo hi Hmin Hmax _ _ Hv1).
  rewrite (csc_position parse context lo hi Hmin Hmax _ _ Hv2).
  rewrite Hstops. cbn [fmap list_fmap]. rewrite !interpolate_two_stops.
  pose proof (position_range lo hi (Chroma.Finite q1)) as Hr1.
  pose proof (position_range lo hi (Chroma.Finite q2)) as Hr2.
  pose proof (position_mono lo hi q1 q2 Hd H12) as Hmono.
  eexists _, _. split; [reflexivity|]. split; [reflexivity|].
  split; [|split].
  - apply mix_moves_towards; lra.
  - intros Heq. apply mix_start.
    assert (Chroma.position lo hi (Chroma.Finite q1) = 0%Q) as ->; [|ring].
    cbn. apply clamp01_low. rewrite Heq, linear_map_lo by done. lra.
  - intros Heq. apply mix_end.
    assert (Chroma.position lo hi (Chroma.Finite q2) = 1%Q) as ->; [|ring].
    cbn. apply clamp01_high. rewrite Heq, linear_map_hi by done. lra.
Qed.

Lemma function5_two_stops_monotone_witness :
  exists x y,
    resolved_color Sample.parse (Sample.with_number 2.5%float)
      Sample.two_classes Sample.store = Some x /\
    resolved_color Sample.parse (Sample.with_number 7.5%float)
      Sample.two_classes Sample.store = Some y /\
    rgb_moves_towards (Sample.parse (JS.PStr "red"))
      (Sample.parse (JS.PStr "blue")) x y.
Proof.
  destruct (function5_two_stops_monotone Sample.parse Sample.two_classes
              Sample.store _ (JS.PStr "red") (JS.PStr "blue") 0%Q 10%Q
              (Sample.with_number 2.5%float) (Sample.with_number 7.5%float)
              (5 # 2)%Q (15 # 2)%Q
              eq_refl eq_refl eq_refl eq_refl eq_refl eq_refl eq_refl
              ltac:(discriminate) ltac:(discriminate) ltac:(discriminate))
    as (x & y & Hx & Hy & Hmove & _).
  exists x, y. auto.
Defined.

(** ** Further properties of the resolvers *)

Lemma writes_only_refl (l : loc) (k : string) (h : heap) : writes_only l k h h.
Proof. by repeat split. Qed.

Lemma writes_only_set_property (l : loc) (k : string) (v : val) (h : heap) :
  writes_only l k h (set_property l k v h).
Proof.
  unfold writes_only, set_property. split; [apply dom_alter_L|]. split.
  - intros l' Hne. by rewrite lookup_alter_ne.
  - intros k' Hne. unfold deref. rewrite lookup_alter_eq.
    destruct (h !! l) as [o|]; [|done]. cbn. by rewrite lookup_insert_ne.
Qed.

(** X1: each of the four resolvers writes at most one property, [fillColor],
    of one object (the style for [function0] and [function5], the circle
    options for [function1] and [function4]): no object is created or
    removed, every other object and every other property is as before. *)
Theorem resolvers_write_only_fillColor (parse : JS.prim -> Chroma.rgb)
    (feature : feature) (latlng : Leaflet.latlng) (context : context)
    (h : heap) :
  let style := Hideout.style (hideout context) in
  let circleOptions := Hideout.circleOptions (hideout context) in
  writes_only style "fillColor" h (function0 feature context h).2 /\
  writes_only circleOptions "fillColor" h (function1 feature latlng context h).2 /\
  writes_only circleOptions "fillColor" h
    (function4 parse feature latlng context h).2 /\
  writes_only style "fillColor" h (function5 parse feature context h).2.
Proof.
  cbv zeta. split; [|split; [|split]].
  - rewrite function0_unfold. cbn [snd].
    destruct (last_match _ _);
      [apply writes_only_set_property|apply writes_only_refl].
  - apply writes_only_set_property.
  - apply writes_only_set_property.
  - apply writes_only_set_property.
Qed.

(** X2: [function0] is idempotent: styling the same feature again, on the
    store the first call left, changes nothing and returns the same. *)
Theorem function0_idempotent (feature : feature) (context : context) (h : heap) :
  function0 feature context (function0 feature context h).2 =
  function0 feature context h.
Proof.
  rewrite !function0_unfold. cbn [snd].
  destruct (last_match _ _); [|reflexivity].
  by rewrite set_property_twice.
Qed.

(** X3: the style object is shared between calls, and [function0] writes
    only on a match: a feature that matches no class is left with the colour
    resolved for the feature styled before it. *)
Theorem function0_keeps_previous_color (before after : feature)
    (context : context) (h : heap) (o : obj) (i : nat) :
  let classes := Hideout.classes (hideout context) in
  let colorscale := Hideout.colorscale (hideout context) in
  let style := Hideout.style (hideout context) in
  let value f := get_property (properties f) (Hideout.colorProp (hideout context)) in
  h !! style = Some o ->
  (i < length classes)%nat ->
  JS.IsLooselyEqual (value before) (get_index classes i) = true ->
  (forall j, (i < j < length classes)%nat ->
             JS.IsLooselyEqual (value before) (get_index classes j) = false) ->
  (forall j c, classes !! j = Some c ->
               JS.IsLooselyEqual (value after) c = false) ->
  fill_color
    (function0 after context (function0 before context h).2).2 style
  = Some (VPrim (get_index colorscale i)).
Proof.
  cbv zeta. intros Ho Hi Hm Hlast Hno.
  rewrite (function0_unfold after), (last_match_None after context Hno).
  rewrite (function0_unfold before).
  rewrite (last_match_intro before context i Hi Hm Hlast).
  cbn [snd]. by apply fill_color_set with o.
Qed.

Lemma function0_keeps_previous_color_witness :
  fill_color
    (function0 (Sample.with_class (JS.PStr "C")) Sample.two_classes
       (function0 (Sample.with_class (JS.PStr "B")) Sample.two_classes
          Sample.store).2).2 Sample.style_ref
  = Some (VPrim (JS.PStr "blue")).
Proof.
  refine (function0_keeps_previous_color (Sample.with_class (JS.PStr "B"))
            (Sample.with_class (JS.PStr "C")) Sample.two_classes Sample.store
            _ 1 _ _ _ _ _).
  - reflexivity.
  - simpl. lia.
  - reflexivity.
  - simpl. intros j Hj. lia.
  - intros [|[|j]] c; simpl; intros Hc; inversion Hc; reflexivity.
Defined.

Section StringClasses.
Variables (feature : feature) (context : context) (h : heap).
Variables (s : string) (names : list string).

Hypothesis value_is_string :
  get_property (properties feature) (Hideout.colorProp (hideout context))
  = JS.PStr s.
Hypothesis classes_are_strings :
  Hideout.classes (hideout context) = JS.PStr <$> names.

Lemma get_index_names (j : nat) (t : string) :
  names !! j = Some t ->
  get_index (Hideout.classes (hideout context)) j = JS.PStr t.
Proof.
  intros Ht. unfold get_index.
  by rewrite classes_are_strings, list_lookup_fmap, Ht.
Qed.

(** Two strings are compared as they are: the only match of a string value
    in a duplicate-free list of strings is its own position. *)
Lemma last_match_string (i : nat) :
  NoDup names -> names !! i = Some s ->
  last_match (JS.PStr s) (Hideout.classes (hideout context)) = Some i.
Proof.
  intros Hnodup Hi.
  pose proof (last_match_intro feature context i) as Hintro.
  rewrite value_is_string in Hintro. apply Hintro.
  - rewrite classes_are_strings, length_fmap. by eapply lookup_lt_Some.
  - rewrite (get_index_names i s Hi). cbn. apply String.eqb_refl.
  - intros j Hj. rewrite classes_are_strings, length_fmap in Hj.
    destruct (lookup_lt_is_Some_2 names j) as [t Ht]; [lia|].
    rewrite (get_index_names j t Ht). cbn. apply String.eqb_neq.
    intros <-. pose proof (NoDup_lookup names i j s Hnodup Hi Ht). lia.
Qed.

Lemma last_match_string_absent :
  s ∉ names ->
  last_match (JS.PStr s) (Hideout.classes (hideout context)) = None.
Proof.
  intros Habsent.
  pose proof (last_match_None feature context) as Hnone.
  rewrite value_is_string in Hnone. apply Hnone.
  intros j c. rewrite classes_are_strings, list_lookup_fmap.
  destruct (names !! j) as [t|] eqn:Ht; [|discriminate].
  intros [= <-]. cbn. apply String.eqb_neq. intros <-.
  apply Habsent. by eapply list_elem_of_lookup_2.
Qed.
End StringClasses.

(** X4: on strings [==] does not coerce.  With a string value and a
    duplicate-free list of string classes, [function0] is an exact lookup:
    the value at position [i] of [classes] gets [colorscale[i]], and a value
    that is not in [classes] changes nothing. *)
Theorem function0_string_classes (feature : feature) (context : context)
    (h : heap) (o : obj) (s : string) (names : list string) :
  let style := Hideout.style (hideout context) in
  let colorscale := Hideout.colorscale (hideout context) in
  get_property (properties feature) (Hideout.colorProp (hideout context))
    = JS.PStr s ->
  Hideout.classes (hideout context) = JS.PStr <$> names ->
  NoDup names ->
  h !! style = Some o ->
  (forall i, names !! i = Some s ->
     fill_color (function0 feature context h).2 style
     = Some (VPrim (get_index colorscale i))) /\
  (s ∉ names -> function0 feature context h = (style, h)).
Proof.
  cbv zeta. intros Hvalue Hclasses Hnodup Ho. split.
  - intros i Hi. rewrite function0_unfold, Hvalue.
    rewrite (last_match_string feature context s names Hvalue Hclasses i Hnodup Hi).
    cbn [snd]. by apply fill_color_set with o.
  - intros Habsent. rewrite function0_unfold, Hvalue.
    by rewrite (last_match_string_absent feature context s names Hvalue Hclasses).
Qed.

Lemma function0_string_classes_witness :
  fill_color
    (function0 (Sample.with_class (JS.PStr "B")) Sample.two_classes
       Sample.store).2 Sample.style_ref
  = Some (VPrim (JS.PStr "blue")).
Proof.
  refine (proj1 (function0_string_classes (Sample.with_class (JS.PStr "B"))
            Sample.two_classes Sample.store _ "B" ["A"; "B"]
            eq_refl eq_refl _ eq_refl) 1%nat eq_refl).
  by apply (bool_decide_unpack _).
Defined.

(** X5: for a feature without the property [colorProp] the value read is
    [undefined] ([colorProp] not being the name of a member that every object
    inherits), and [==] equates [undefined] with [undefined] and [null] only:
    unless one of these is listed in [classes], [function0] changes
    nothing. *)
Theorem function0_missing_property (feature : feature) (context : context)
    (h : heap) :
  let classes := Hideout.classes (hideout context) in
  get_property (properties feature) (Hideout.colorProp (hideout context))
    = JS.PUndefined ->
  (forall j c, classes !! j = Some c -> c <> JS.PUndefined /\ c <> JS.PNull) ->
  function0 feature context h = (Hideout.style (hideout context), h).
Proof.
  cbv zeta. intros Hmissing Hclasses.
  rewrite function0_unfold, last_match_None; [done|].
  intros j c Hc. rewrite Hmissing. cbn.
  destruct (Hclasses j c Hc) as [Hu Hn]. by destruct c.
Qed.

Lemma function0_missing_property_witness :
  function0 Sample.bare Sample.two_classes Sample.store
  = (Sample.style_ref, Sample.store).
Proof.
  refine (function0_missing_property Sample.bare Sample.two_classes
            Sample.store eq_refl _).
  intros [|[|j]] c; simpl; intros Hc; inversion Hc; split; discriminate.
Defined.

(** X6: for a feature without the property [colorProp], where the value
    read is [undefined], [function1] looks up the key "undefined" (the string
    form of the missing value) in [color_dict]: the marker gets the colour
    stored under that key, if any, and [undefined] otherwise. *)
Theorem function1_missing_property (feature : feature)
    (latlng : Leaflet.latlng) (context : context) (h : heap) (o : obj) :
  let color_dict := Hideout.color_dict (hideout context) in
  let fill :=
    Leaflet.marker_options (function1 feature latlng context h).1 !! "fillColor" in
  get_property (properties feature) (Hideout.colorProp (hideout context))
    = JS.PUndefined ->
  h !! Hideout.circleOptions (hideout context) = Some o ->
  (forall c, color_dict !! "undefined" = Some c -> fill = Some (VPrim c)) /\
  (color_dict !! "undefined" = None -> fill = Some (VPrim JS.PUndefined)).
Proof.
  cbv zeta. intros Hmissing Ho. unfold function1. cbn [fst].
  unfold Leaflet.circleMarker. cbn [Leaflet.marker_options].
  rewrite (deref_set_property _ _ _ _ _ Ho), lookup_insert_eq.
  rewrite Hmissing.
  change (JS.ToPropertyKey JS.PUndefined) with "undefined".
  unfold get_property. split; [intros c ->|intros ->]; done.
Qed.

Lemma function1_missing_property_witness :
  Leaflet.marker_options
    (function1 Sample.bare Sample.somewhere Sample.two_classes
       Sample.store).1 !! "fillColor"
  = Some (VPrim JS.PUndefined).
Proof.
  exact (proj2 (function1_missing_property Sample.bare Sample.somewhere
           Sample.two_classes Sample.store
           (<["radius" := VPrim (JS.PNum 5)]> ∅) eq_refl eq_refl) eq_refl).
Defined.

(** X7: [function1], [function4] and [function5] assign the fill colour
    unconditionally, so nothing of an earlier call survives: marker, returned
    reference and store are the same as without the earlier call; the same
    holds for [function5] after [function0]. *)
Theorem unconditional_resolvers_overwrite (parse : JS.prim -> Chroma.rgb)
    (before after : feature) (latlng latlng' : Leaflet.latlng)
    (context : context) (h : heap) :
  function1 after latlng' context (function1 before latlng context h).2
    = function1 after latlng' context h /\
  function4 parse after latlng' context
      (function4 parse before latlng context h).2
    = function4 parse after latlng' context h /\
  function5 parse after context (function5 parse before context h).2
    = function5 parse after context h /\
  function5 parse after context (function0 before context h).2
    = function5 parse after context h.
Proof.
  split; [|split; [|split]].
  - unfold function1. cbn [snd]. by rewrite set_property_twice.
  - unfold function4. cbn [snd]. by rewrite set_property_twice.
  - unfold function5. cbn [snd]. by rewrite set_property_twice.
  - rewrite function0_unfold. unfold function5. cbn [snd].
    destruct (last_match _ _); [|reflexivity]. by rewrite set_property_twice.
Qed.

(** X8: the two ways of mapping a category to a colour agree where both are
    defined.  With string classes without duplicates and a dictionary that
    maps each class to the colour at its position, the colour [function0]
    leaves in the style for a value listed in [classes] is the fill colour of
    the marker [function1] builds for it. *)
Theorem scan_and_dictionary_agree (feature : feature)
    (latlng : Leaflet.latlng) (context : context) (h : heap) (o o' : obj)
    (s : string) (names : list string) :
  let colorscale := Hideout.colorscale (hideout context) in
  let color_dict := Hideout.color_dict (hideout context) in
  get_property (properties feature) (Hideout.colorProp (hideout context))
    = JS.PStr s ->
  Hideout.classes (hideout context) = JS.PStr <$> names ->
  NoDup names ->
  (forall j t, names !! j = Some t ->
               color_dict !! t = Some (get_index colorscale j)) ->
  s ∈ names ->
  h !! Hideout.style (hideout context) = Some o ->
  h !! Hideout.circleOptions (hideout context) = Some o' ->
  fill_color (function0 feature context h).2 (Hideout.style (hideout context))
  = Leaflet.marker_options (function1 feature latlng context h).1 !! "fillColor".
Proof.
  cbv zeta. intros Hvalue Hclasses Hnodup Hdict Hin Ho Ho'.
  apply list_elem_of_lookup_1 in Hin as [i Hi].
  rewrite function0_unfold, Hvalue.
  rewrite (last_match_string feature context s names Hvalue Hclasses i Hnodup Hi).
  cbn [snd]. rewrite (fill_color_set _ _ _ _ Ho).
  unfold function1. cbn [fst].
  unfold Leaflet.circleMarker. cbn [Leaflet.marker_options].
  rewrite (deref_set_property _ _ _ _ _ Ho'), lookup_insert_eq.
  rewrite Hvalue. cbn. unfold get_property at 1.
  by rewrite (Hdict i s Hi).
Qed.

Lemma scan_and_dictionary_agree_witness :
  fill_color
    (function0 (Sample.with_class (JS.PStr "B")) Sample.consistent
       Sample.store).2 Sample.style_ref
  = Leaflet.marker_options
      (function1 (Sample.with_class (JS.PStr "B")) Sample.somewhere
         Sample.consistent Sample.store).1 !! "fillColor".
Proof.
  refine (scan_and_dictionary_agree (Sample.with_class (JS.PStr "B"))
            Sample.somewhere Sample.consistent Sample.store _ _ "B" ["A"; "B"]
            eq_refl eq_refl _ _ _ eq_refl eq_refl).
  - by apply (bool_decide_unpack _).
  - intros [|[|j]] t; simpl; intros Ht; inversion Ht; reflexivity.
  - by apply (bool_decide_unpack _).
Defined.

(** ** Further properties of the tooltip formatters *)

(** X9: [function2] raises a TypeError exactly when [mean_velocity] or
    [mp_label_prob] is not a number, [function3] exactly when
    [mean_velocity] or [label_prob] is not a number; the other properties,
    [stable_prop] included, never make them fail. *)
Theorem tooltip_formatters_fail_iff (feature : feature)
    (layer : Leaflet.layer) (context : context) :
  let p := properties feature in
  (function2 feature layer context = Throw TypeError <->
   ~ (exists x y, get_property p "mean_velocity" = JS.PNum x /\
                  get_property p "mp_label_prob" = JS.PNum y)) /\
  (function3 feature layer context = Throw TypeError <->
   ~ (exists x y, get_property p "mean_velocity" = JS.PNum x /\
                  get_property p "label_prob" = JS.PNum y)).
Proof.
  cbv zeta. unfold function2, function2_text, function3, function3_text.
  split.
  - destruct (get_property (properties feature) "mean_velocity") as [| | |x| |];
      destruct (get_property (properties feature) "mp_label_prob") as [| | |y| |];
      cbn; split; try done; try (intros _ (x' & y' & ? & ?); discriminate).
    intros Hno. destruct Hno. by exists x, y.
  - destruct (get_property (properties feature) "mean_velocity") as [| | |x| |];
      destruct (get_property (properties feature) "label_prob") as [| | |y| |];
      cbn; split; try done; try (intros _ (x' & y' & ? & ?); discriminate).
    intros Hno. destruct Hno. by exists x, y.
Qed.

Lemma contains_prefix3 (s t u v : string) :
  contains (s +:+ t +:+ u +:+ v) (s +:+ t +:+ u).
Proof. exists "", v. by rewrite !append_assoc. Qed.

(** X10: an aggregate without [stable_prop] does not fail: the product
    [undefined * 100] is NaN and the tooltip reads "Stable prop: NaN%". *)
Theorem function3_missing_stable_prop (feature : feature)
    (layer : Leaflet.layer) (context : context) (mean_velocity label_prob : float) :
  let p := properties feature in
  get_property p "mean_velocity" = JS.PNum mean_velocity ->
  get_property p "label_prob" = JS.PNum label_prob ->
  p !! "stable_prop" = None ->
  exists text,
    function3 feature layer context = Ok {| Leaflet.tooltip := Some text |} /\
    contains text "Stable prop: NaN%".
Proof.
  cbv zeta. intros Hmv Hlp Hmissing.
  assert (call_toFixed
            (JS.PNum (times100 (get_property (properties feature) "stable_prop")))
            2 = Ok "NaN") as Hnan.
  { unfold get_property. rewrite Hmissing. vm_compute. reflexivity. }
  unfold function3, function3_text. rewrite Hmv, Hlp, Hnan. cbn.
  eexists. split; [reflexivity|].
  change "Stable prop: NaN%" with ("Stable prop: " +:+ "NaN" +:+ "%").
  do 7 apply contains_skip. apply contains_prefix3.
Qed.

Lemma function3_missing_stable_prop_witness :
  exists text,
    function3 Sample.aggregate_without_stable_prop Sample.no_tooltip
      Sample.two_classes = Ok {| Leaflet.tooltip := Some text |} /\
    contains text "Stable prop: NaN%".
Proof.
  exact (function3_missing_stable_prop Sample.aggregate_without_stable_prop
           Sample.no_tooltip Sample.two_classes (-2.5)%float 0.75%float
           eq_refl eq_refl eq_refl).
Defined.

Section ShownValue.
Implicit Types s t : string.

Lemma digit_char_value (d : Z) :
  0 <= d <= 9 -> Z.of_N (N_of_ascii (JS.digit_char d)) - 48 = d.
Proof.
  intros Hd.
  assert (d = 0 \/ d = 1 \/ d = 2 \/ d = 3 \/ d = 4 \/ d = 5 \/ d = 6 \/
          d = 7 \/ d = 8 \/ d = 9) as Hcases by lia.
  repeat (destruct Hcases as [->|Hcases]; [reflexivity|]). by subst.
Qed.

Lemma decimal_value_go_append s t (acc : Z) :
  decimal_value_go (s +:+ t) acc = decimal_value_go t (decimal_value_go s acc).
Proof.
  revert acc. induction s as [|c s IH]; intros acc; [reflexivity|].
  rewrite append_cons. cbn. apply IH.
Qed.

Lemma decimal_value_go_zeros (n : nat) : decimal_value_go (JS.zeros n) 0 = 0.
Proof. induction n as [|n IH]; [reflexivity|exact IH]. Qed.

(** Leading zeros do not change the number. *)
Lemma decimal_value_zeros (n : nat) s :
  decimal_value (JS.zeros n +:+ s) = decimal_value s.
Proof.
  unfold decimal_value. by rewrite decimal_value_go_append, decimal_value_go_zeros.
Qed.

Lemma decimal_digits_go_value (fuel : nat) (n : Z) (acc : string) :
  0 <= n < 2 ^ Z.of_nat fuel ->
  decimal_value_go (JS.decimal_digits_go fuel n acc) 0 = decimal_value_go acc n.
Proof.
  revert n acc. induction fuel as [|fuel IH]; intros n acc Hn.
  - cbn in *. by replace n with 0 by lia.
  - cbn [JS.decimal_digits_go].
    pose proof (Z.mod_pos_bound n 10 ltac:(lia)) as Hmod.
    pose proof (Z.div_mod n 10 ltac:(lia)) as Hdiv.
    destruct (Z.eqb_spec (n / 10) 0) as [Hzero|Hnonzero].
    + cbn. rewrite digit_char_value by lia. f_equal. lia.
    + rewrite IH.
      * cbn. rewrite digit_char_value by lia. f_equal. lia.
      * rewrite Nat2Z.inj_succ, Z.pow_succ_r in Hn by lia.
        split; [apply Z.div_pos; lia|].
        apply Z.div_lt_upper_bound; lia.
Qed.

(** Printing a natural number in decimal and reading it back is the
    identity. *)
Lemma decimal_value_digits (n : Z) :
  0 <= n -> decimal_value (JS.decimal_digits n) = n.
Proof.
  intros Hn. unfold decimal_value, JS.decimal_digits.
  rewrite decimal_digits_go_value; [reflexivity|].
  split; [done|].
  rewrite Nat2Z.inj_succ, Z2Nat.id by apply Z.log2_nonneg.
  destruct (Z.eq_dec n 0) as [->|Hpos]; [reflexivity|].
  apply Z.log2_spec. lia.
Qed.

Lemma insert_point_value (m : string) (f : nat) :
  f <> O ->
  exists whole frac,
    JS.insert_point m f = whole +:+ "." +:+ frac /\
    String.length frac = f /\
    decimal_value (whole +:+ frac) = decimal_value m.
Proof.
  intros Hf. unfold JS.insert_point. destruct f as [|f]; [done|].
  set (m' := if (String.length m <=? S f)%nat
             then JS.zeros (S f + 1 - String.length m) +:+ m else m).
  assert (decimal_value m' = decimal_value m /\ (S f < String.length m')%nat)
    as [Hvalue Hlen].
  { unfold m'. destruct (Nat.leb_spec (String.length m) (S f)).
    - rewrite decimal_value_zeros, length_append, length_zeros.
      split; [done|lia].
    - split; [done|lia]. }
  eexists _, _. split; [reflexivity|].
  rewrite length_str_drop, str_take_drop. split; [lia|done].
Qed.
End ShownValue.

Section Rounding.
#[local] Open Scope Q_scope.

Lemma Q_of_finite_pos (m : positive) (e : Z) : 0 < JS.Q_of_finite m e.
Proof.
  unfold JS.Q_of_finite. rewrite Qred_correct.
  apply Qmult_lt_0_compat; [reflexivity|].
  unfold JS.pow2. apply Qpower_0_lt. reflexivity.
Qed.

Lemma pow10_2 : JS.pow10 2 == 100.
Proof. reflexivity. Qed.

(** The integer [toFixed(2)] prints is the hundredfold of the number,
    rounded to the nearest integer. *)
Lemma nearest_scaled_accuracy (r : Q) :
  0 <= r ->
  (0 <= JS.nearest_scaled r 2)%Z /\
  Qabs (Qmake (JS.nearest_scaled r 2) 100 - r) <= 1 # 200.
Proof.
  intros Hr. unfold JS.nearest_scaled.
  set (z := r * JS.pow10 2 + (1 # 2)).
  assert (z == r * 100 + (1 # 2)) as Hz by (unfold z; by rewrite pow10_2).
  pose proof (Qfloor_le z) as Hle. pose proof (Qlt_floor z) as Hlt.
  rewrite inject_Z_plus in Hlt.
  split.
  - change 0%Z with (Qfloor 0). apply Qfloor_resp_le. lra.
  - assert (Qmake (Qfloor z) 100 == inject_Z (Qfloor z) / 100) as ->.
    { unfold Qeq, inject_Z, Qdiv, Qmult, Qinv. cbn. lia. }
    apply Qabs_Qle_condition.
    assert (inject_Z (Qfloor z) / 100 == inject_Z (Qfloor z) * (1 # 100)) as ->
      by (field).
    change (inject_Z 1) with 1 in Hlt. split; lra.
Qed.

Lemma Qfloor_zero (z : Q) : 0 <= z -> z < 1 -> Qfloor z = 0%Z.
Proof.
  intros H0 H1.
  pose proof (Qfloor_le z) as Hle. pose proof (Qlt_floor z) as Hlt.
  assert (inject_Z (Qfloor z) < inject_Z 1) as Hup by (change (inject_Z 1) with 1; lra).
  assert (inject_Z (-1) < inject_Z (Qfloor z)) as Hdown.
  { rewrite inject_Z_plus in Hlt. change (inject_Z 1) with 1 in Hlt.
    change (inject_Z (-1)) with (-1). lra. }
  rewrite <- Zlt_Qlt in Hup, Hdown. lia.
Qed.

(** What [toFixed(2)] prints for a finite number of magnitude below 10^21:
    sign, digits, a point and two digits that denote the number to within
    half a hundredth. *)
Lemma toFixed_accuracy (x : float) (neg : bool) (m : positive) (e : Z) :
  Prim2SF x = S754_finite neg m e ->
  JS.Q_of_finite m e < JS.pow10 21 ->
  exists whole frac,
    JS.toFixed x 2 = (if neg then "-" else "") +:+ whole +:+ "." +:+ frac /\
    String.length frac = 2%nat /\
    Qabs (shown_value whole frac - JS.Q_of_finite m e) <= 1 # 200.
Proof.
  intros Hx Hrange. unfold JS.toFixed. rewrite Hx.
  assert (Qle_bool (JS.pow10 21) (JS.Q_of_finite m e) = false) as ->.
  { apply not_true_iff_false. rewrite Qle_bool_iff. lra. }
  change (Z.of_nat 2) with 2%Z.
  pose proof (Q_of_finite_pos m e) as Hpos.
  destruct (nearest_scaled_accuracy (JS.Q_of_finite m e)) as [Hn Hclose];
    [lra|].
  destruct (insert_point_value
              (JS.decimal_digits (JS.nearest_scaled (JS.Q_of_finite m e) 2)) 2)
    as (whole & frac & -> & Hlen & Hvalue); [done|].
  exists whole, frac. split; [reflexivity|]. split; [done|].
  unfold shown_value. by rewrite Hvalue, decimal_value_digits.
Qed.

(** Below half a hundredth the digits are 0.00, and the sign stays. *)
Lemma toFixed_small (x : float) (neg : bool) (m : positive) (e : Z) :
  Prim2SF x = S754_finite neg m e ->
  JS.Q_of_finite m e < 1 # 200 ->
  JS.toFixed x 2 = (if neg then "-" else "") +:+ "0.00".
Proof.
  intros Hx Hsmall. unfold JS.toFixed. rewrite Hx.
  pose proof (Q_of_finite_pos m e) as Hpos.
  assert (Qle_bool (JS.pow10 21) (JS.Q_of_finite m e) = false) as ->.
  { apply not_true_iff_false. rewrite Qle_bool_iff.
    assert (1 <= JS.pow10 21) by (by vm_compute). lra. }
  change (Z.of_nat 2) with 2%Z.
  assert (JS.nearest_scaled (JS.Q_of_finite m e) 2 = 0%Z) as ->.
  { unfold JS.nearest_scaled. apply Qfloor_zero; rewrite pow10_2; lra. }
  reflexivity.
Qed.
End Rounding.

Section TwoDecimals.
#[local] Open Scope Q_scope.

(** Inserting the point before the last two digits: digits on both sides,
    at least one before, and the number they denote together is the one
    printed. *)
Lemma insert_point_two_decimals (m : string) :
  m <> "" -> all_decimal_digits m = true ->
  exists whole frac,
    JS.insert_point m 2 = whole +:+ "." +:+ frac /\
    whole <> "" /\
    all_decimal_digits whole = true /\
    all_decimal_digits frac = true /\
    String.length frac = 2%nat /\
    decimal_value (whole +:+ frac) = decimal_value m.
Proof.
  intros Hm Hdigits. unfold JS.insert_point.
  set (m' := if (String.length m <=? 2)%nat
             then JS.zeros (2 + 1 - String.length m) +:+ m else m).
  assert (all_decimal_digits m' = true /\ (2 < String.length m')%nat /\
          decimal_value m' = decimal_value m) as (Hdigits' & Hlen & Hvalue).
  { unfold m'. destruct (Nat.leb_spec (String.length m) 2).
    - rewrite all_decimal_digits_append, all_decimal_digits_zeros, Hdigits.
      rewrite length_append, length_zeros, decimal_value_zeros.
      split; [done|]. split; [lia|done].
    - split; [done|]. split; [lia|done]. }
  destruct (all_decimal_digits_take_drop (String.length m' - 2) m' Hdigits')
    as [Htake Hdrop].
  eexists _, _. split; [reflexivity|].
  rewrite length_str_drop, str_take_drop.
  split; [|split; [done|split; [done|split; [lia|done]]]].
  apply str_take_nonempty; [lia|]. intros ->. cbn in Hlen. lia.
Qed.

(** What [toFixed(2)] prints for a finite number of magnitude below 10^21
    is that number to two decimal places. *)
Lemma toFixed_two_decimals (x : float) (q : Q) :
  exact_value x = Some q ->
  Qabs q < JS.pow10 21 ->
  shows_two_decimals (JS.toFixed x 2) q.
Proof.
  unfold exact_value, JS.toFixed, shows_two_decimals.
  destruct (Prim2SF x) as [sg|sg| |neg m e]; try discriminate.
  - intros [= <-] _. exists false, "0", "00".
    split; [reflexivity|]. split; [split; [discriminate|intros H; inversion H]|].
    repeat (split; [done|]). by vm_compute.
  - intros [= <-] Hrange.
    pose proof (Q_of_finite_pos m e) as Hpos.
    set (r := JS.Q_of_finite m e) in *.
    assert (Qabs (if neg then - r else r) == r) as Habs.
    { destruct neg; [rewrite Qabs_opp|]; apply Qabs_pos; lra. }
    rewrite Habs in Hrange.
    assert (Qle_bool (JS.pow10 21) r = false) as ->.
    { apply not_true_iff_false. rewrite Qle_bool_iff. lra. }
    change (Z.of_nat 2) with 2%Z.
    destruct (nearest_scaled_accuracy r) as [Hn Hclose]; [lra|].
    destruct (decimal_digits_shape (JS.nearest_scaled r 2)) as [Hdigits Hne].
    destruct (insert_point_two_decimals _ Hne Hdigits)
      as (whole & frac & -> & Hwhole & Hw & Hf & Hlen & Hvalue).
    exists neg, whole, frac. split; [reflexivity|].
    split; [destruct neg; split; try done; try lra; intros; lra|].
    repeat (split; [done|]).
    unfold shown_value. by rewrite Hvalue, decimal_value_digits, Habs.
Qed.

Lemma has_point_append (s t : string) :
  has_point (s +:+ t) = has_point s || has_point t.
Proof.
  induction s as [|c s IH]; [reflexivity|]. rewrite append_cons. cbn.
  by rewrite IH, orb_assoc.
Qed.

Lemma shows_two_decimals_has_point (shown : string) (q : Q) :
  shows_two_decimals shown q -> has_point shown = true.
Proof.
  intros (neg & whole & frac & -> & _).
  rewrite !has_point_append. cbn. by rewrite !orb_true_r.
Qed.
End TwoDecimals.

Lemma append_empty_r (s : string) : s +:+ "" = s.
Proof.
  induction s as [|c s IH]; [reflexivity|]. by rewrite append_cons, IH.
Qed.

Lemma contains_refl (s : string) : contains s s.
Proof. exists "", "". by rewrite append_empty_r. Qed.

(** The lines of a tooltip, found piece by piece. *)
Ltac find_line :=
  unfold br; rewrite ?append_assoc;
  repeat first
    [ apply contains_refl | apply contains_prefix3 | apply contains_skip ].

(** C8 (as amended): for a point feature whose [mean_velocity] and
    [mp_label_prob] are finite numbers of magnitude below 10^21,
    [function2] binds a tooltip whose text contains the point identifier,
    the mean velocity to two decimal places followed by "mm/yr", the label
    probability to two decimal places, the trend class and the trend
    subclass; strings are shown as they are, and "to two decimal places"
    means sign, digits, a point and two digits that denote the stored number
    to within half a hundredth. *)
Theorem function2_tooltip (feature : feature) (layer : Leaflet.layer)
    (context : context) (mean_velocity mp_label_prob : float)
    (velocity prob : Q) :
  let p := properties feature in
  get_property p "mean_velocity" = JS.PNum mean_velocity ->
  get_property p "mp_label_prob" = JS.PNum mp_label_prob ->
  exact_value mean_velocity = Some velocity ->
  Qlt (Qabs velocity) (JS.pow10 21) ->
  exact_value mp_label_prob = Some prob ->
  Qlt (Qabs prob) (JS.pow10 21) ->
  exists text,
    function2 feature layer context = Ok {| Leaflet.tooltip := Some text |} /\
    contains text ("PID: " +:+ JS.ToString (get_property p "pid") +:+ "<br>") /\
    contains text ("Mean velocity: " +:+ JS.toFixed mean_velocity 2 +:+ "mm/yr") /\
    shows_two_decimals (JS.toFixed mean_velocity 2) velocity /\
    contains text ("Label prob: " +:+ JS.toFixed mp_label_prob 2 +:+ "<br>") /\
    shows_two_decimals (JS.toFixed mp_label_prob 2) prob /\
    contains text
      ("Trend class: " +:+ JS.ToString (get_property p "trend_class") +:+ "<br>") /\
    contains text
      ("Trend subclass: " +:+ JS.ToString (get_property p "trend_subclass")
       +:+ "<br>") /\
    (forall s, JS.ToString (JS.PStr s) = s).
Proof.
  cbv zeta. intros Hmv Hlp Hvelocity Hvrange Hprob Hprange.
  unfold function2, function2_text. rewrite Hmv, Hlp. cbn.
  eexists. split; [reflexivity|].
  split; [find_line|]. split; [find_line|].
  split; [by apply toFixed_two_decimals|].
  split; [find_line|].
  split; [by apply toFixed_two_decimals|].
  split; [find_line|]. split; [find_line|]. done.
Qed.

(** The scenario of C8: with mean_velocity = 3.456 the tooltip text
    contains "3.46mm/yr". *)
Lemma function2_tooltip_witness :
  exists text,
    function2 Sample.point Sample.no_tooltip Sample.two_classes
      = Ok {| Leaflet.tooltip := Some text |} /\
    contains text "Mean velocity: 3.46mm/yr".
Proof.
  destruct (function2_tooltip Sample.point Sample.no_tooltip Sample.two_classes
              3.456%float 0.875%float
              (7782220156096217 # 2251799813685248)%Q (7 # 8)%Q
              eq_refl eq_refl
              ltac:(vm_compute; reflexivity) ltac:(vm_compute; reflexivity)
              ltac:(vm_compute; reflexivity) ltac:(vm_compute; reflexivity))
    as (text & Hrun & _ & Hvelocity & _).
  exists text. split; [exact Hrun|].
  vm_compute (_ +:+ JS.toFixed _ _ +:+ _) in Hvelocity. exact Hvelocity.
Defined.

(** C8 (as stated) fails: mean_velocity = 1e21 is a numeric property, and
    the tooltip shows it as "1e+21mm/yr", which is not a number to two
    decimal places. *)
Lemma function2_exponent_counterexample :
  function2 Sample.fast_point Sample.no_tooltip Sample.two_classes
    = Ok {| Leaflet.tooltip :=
              Some ("PID: 10Z7aBcDeF" +:+ br
                    +:+ "Mean velocity: 1e+21mm/yr" +:+ br
                    +:+ "Label prob: 0.88" +:+ br
                    +:+ "Trend class: Y" +:+ br
                    +:+ "Trend subclass: linear<br>") |} /\
  JS.toFixed 1e21 2 = "1e+21" /\
  (forall q, ~ shows_two_decimals "1e+21" q).
Proof.
  split; [vm_compute; reflexivity|]. split; [vm_compute; reflexivity|].
  intros q Hshows%shows_two_decimals_has_point. discriminate.
Qed.

(** C9 (as amended): for an aggregate feature with numeric properties for
    which the binary64 product [stable_prop * 100] is finite and of
    magnitude below 10^21, [function3] renders the stable proportion as
    that product to two decimal places (sign, digits, a point and two digits
    that denote the product to within half a hundredth) followed by "%". *)
Theorem function3_tooltip (feature : feature) (layer : Leaflet.layer)
    (context : context) (mean_velocity stable_prop label_prob : float)
    (percent : Q) :
  let p := properties feature in
  get_property p "mean_velocity" = JS.PNum mean_velocity ->
  get_property p "stable_prop" = JS.PNum stable_prop ->
  get_property p "label_prob" = JS.PNum label_prob ->
  exact_value (PrimFloat.mul stable_prop 100%float) = Some percent ->
  Qlt (Qabs percent) (JS.pow10 21) ->
  exists text,
    function3 feature layer context = Ok {| Leaflet.tooltip := Some text |} /\
    contains text
      ("Stable prop: " +:+ JS.toFixed (PrimFloat.mul stable_prop 100%float) 2
       +:+ "%") /\
    shows_two_decimals (JS.toFixed (PrimFloat.mul stable_prop 100%float) 2)
      percent.
Proof.
  cbv zeta. intros Hmv Hsp Hlp Hpercent Hrange.
  unfold function3, function3_text, times100. rewrite Hmv, Hsp, Hlp. cbn.
  eexists. split; [reflexivity|].
  split; [find_line|]. by apply toFixed_two_decimals.
Qed.

(** The scenario of C9: with stable_prop = 0.5 the tooltip text contains
    "50.00%". *)
Lemma function3_tooltip_witness :
  exists text,
    function3 Sample.aggregate Sample.no_tooltip Sample.two_classes
      = Ok {| Leaflet.tooltip := Some text |} /\
    contains text "Stable prop: 50.00%".
Proof.
  destruct (function3_tooltip Sample.aggregate Sample.no_tooltip
              Sample.two_classes (-2.5)%float 0.5%float 0.75%float 50%Q
              eq_refl eq_refl eq_refl
              ltac:(vm_compute; reflexivity) ltac:(vm_compute; reflexivity))
    as (text & Hrun & Hstable & _).
  exists text. split; [exact Hrun|].
  vm_compute (_ +:+ JS.toFixed _ _ +:+ _) in Hstable. exact Hstable.
Defined.

(** C9 (as stated) fails: with stable_prop = 1e19, a numeric property, the
    tooltip shows the percentage as "1e+21%", which is not a number to two
    decimal places. *)
Lemma function3_exponent_counterexample :
  function3 Sample.big_aggregate Sample.no_tooltip Sample.two_classes
    = Ok {| Leaflet.tooltip :=
              Some ("N active MPs: 12" +:+ br
                    +:+ "Mean velocity: -2.50mm/yr" +:+ br
                    +:+ "Stable prop: 1e+21%" +:+ br
                    +:+ "Avg. label prob: 0.75" +:+ br
                    +:+ "ADA major class: A" +:+ br
                    +:+ "ADA major subclass: B<br>") |} /\
  JS.toFixed (PrimFloat.mul 1e19 100) 2 = "1e+21" /\
  (forall q, ~ shows_two_decimals "1e+21" q).
Proof.
  split; [vm_compute; reflexivity|]. split; [vm_compute; reflexivity|].
  intros q Hshows%shows_two_decimals_has_point. discriminate.
Qed.

(** X11: the mean velocity in the tooltip of [function2] is accurate to half
    a hundredth.  For a finite velocity of magnitude below 10^21 the text
    contains, between "Mean velocity: " and "mm/yr", a minus sign exactly
    for a negative velocity, at least one decimal digit, a point and exactly
    two decimal digits, and the number these digits denote differs from the
    magnitude of the stored binary64 value by at most 0.005. *)
Theorem function2_velocity_accuracy (feature : feature)
    (layer : Leaflet.layer) (context : context) (x mp_label_prob : float)
    (velocity : Q) :
  let p := properties feature in
  get_property p "mean_velocity" = JS.PNum x ->
  get_property p "mp_label_prob" = JS.PNum mp_label_prob ->
  exact_value x = Some velocity ->
  Qlt (Qabs velocity) (JS.pow10 21) ->
  exists text (neg : bool) (whole frac : string),
    function2 feature layer context = Ok {| Leaflet.tooltip := Some text |} /\
    contains text
      ("Mean velocity: "
       +:+ ((if neg then "-" else "") +:+ whole +:+ "." +:+ frac)
       +:+ "mm/yr") /\
    (neg = true <-> Qlt velocity 0) /\
    whole <> "" /\
    all_decimal_digits whole = true /\
    all_decimal_digits frac = true /\
    String.length frac = 2%nat /\
    Qle (Qabs (Qminus (shown_value whole frac) (Qabs velocity))) (1 # 200).
Proof.
  cbv zeta. intros Hmv Hlp Hx Hrange.
  destruct (toFixed_two_decimals x velocity Hx Hrange)
    as (neg & whole & frac & Hshown & Hrest).
  unfold function2, function2_text. rewrite Hmv, Hlp. cbn.
  eexists _, neg, whole, frac. split; [reflexivity|].
  split; [|done]. rewrite Hshown.
  do 3 apply contains_skip. apply contains_prefix3.
Qed.

Lemma function2_velocity_accuracy_witness :
  exists text (neg : bool) (whole frac : string),
    function2 Sample.point Sample.no_tooltip Sample.two_classes
      = Ok {| Leaflet.tooltip := Some text |} /\
    contains text
      ("Mean velocity: "
       +:+ ((if neg then "-" else "") +:+ whole +:+ "." +:+ frac)
       +:+ "mm/yr") /\
    all_decimal_digits whole = true /\
    all_decimal_digits frac = true /\
    String.length frac = 2%nat /\
    Qle (Qabs (Qminus (shown_value whole frac)
                 (7782220156096217 # 2251799813685248))) (1 # 200).
Proof.
  destruct (function2_velocity_accuracy Sample.point Sample.no_tooltip
              Sample.two_classes 3.456%float 0.875%float
              (7782220156096217 # 2251799813685248)%Q eq_refl eq_refl
              ltac:(vm_compute; reflexivity) ltac:(vm_compute; reflexivity))
    as (text & neg & whole & frac & Hrun & Htext & _ & _ & Hw & Hf & Hlen & Hclose).
  exists text, neg, whole, frac. auto 10.
Defined.

(** X12: a velocity between -0.005 and 0 is shown by [function2] as
    "-0.00mm/yr": the digits round to zero and the minus sign stays. *)
Theorem function2_small_negative_velocity (feature : feature)
    (layer : Leaflet.layer) (context : context) (x mp_label_prob : float)
    (m : positive) (e : Z) :
  let p := properties feature in
  get_property p "mean_velocity" = JS.PNum x ->
  get_property p "mp_label_prob" = JS.PNum mp_label_prob ->
  Prim2SF x = S754_finite true m e ->
  Qlt (JS.Q_of_finite m e) (1 # 200) ->
  exists text,
    function2 feature layer context = Ok {| Leaflet.tooltip := Some text |} /\
    contains text "Mean velocity: -0.00mm/yr".
Proof.
  cbv zeta. intros Hmv Hlp Hx Hsmall.
  unfold function2, function2_text. rewrite Hmv, Hlp. cbn.
  rewrite (toFixed_small x true m e Hx Hsmall).
  eexists. split; [reflexivity|].
  change "Mean velocity: -0.00mm/yr"
    with ("Mean velocity: " +:+ ("-" +:+ "0.00") +:+ "mm/yr").
  do 3 apply contains_skip. apply contains_prefix3.
Qed.

Lemma function2_small_negative_velocity_witness :
  exists text,
    function2 Sample.still_point Sample.no_tooltip Sample.two_classes
      = Ok {| Leaflet.tooltip := Some text |} /\
    contains text "Mean velocity: -0.00mm/yr".
Proof.
  exact (function2_small_negative_velocity Sample.still_point
           Sample.no_tooltip Sample.two_classes (-0.001)%float 0.875%float
           4611686018427388 (-62) eq_refl eq_refl
           ltac:(vm_compute; reflexivity) ltac:(vm_compute; reflexivity)).
Defined.

(** ** Registration *)

Lemma dashExtensions_unfold
    (before : option (gmap string (gmap string callback))) :
  dashExtensions before = <["default" := default_namespace]> (default ∅ before).
Proof.
  unfold dashExtensions, Object_assign. cbn [fold_left].
  rewrite insert_union_singleton_l.
  destruct before as [o|]; cbn; by rewrite (right_id_L ∅ (∪)).
Qed.

(** X13: loading the script keeps every other namespace of
    [window.dashExtensions] and replaces the namespace [default] as a whole:
    afterwards [default] holds the six callbacks and no function that other
    code had registered under it; this also holds when
    [window.dashExtensions] was undefined, and loading the script a second
    time changes nothing. *)
Theorem dashExtensions_registration
    (before : option (gmap string (gmap string callback))) :
  dashExtensions before !! "default" = Some default_namespace /\
  (forall namespace, namespace <> "default" ->
     dashExtensions before !! namespace = before ≫= (.!! namespace)) /\
  (forall name id,
     dashExtensions before !! "default" ≫= (.!! name) <> Some (Foreign id)) /\
  dashExtensions (Some (dashExtensions before)) = dashExtensions before.
Proof.
  rewrite !dashExtensions_unfold. split; [|split; [|split]].
  - apply lookup_insert_eq.
  - intros namespace Hne. rewrite lookup_insert_ne by done.
    by destruct before.
  - intros name id. rewrite lookup_insert_eq. cbn. unfold default_namespace.
    rewrite !lookup_insert_Some, lookup_empty. intuition discriminate.
  - cbn. apply insert_insert_eq.
Qed.

(** ** Further properties of [==] in [function0] *)

(** Every primitive other than NaN loosely equals itself. *)
Lemma IsLooselyEqual_refl (v : JS.prim) :
  (forall x, v = JS.PNum x -> is_nan x = false) ->
  JS.IsLooselyEqual v v = true.
Proof.
  intros Hnan. destruct v as [| |b|x|s|o]; cbn; try reflexivity.
  - by destruct b.
  - specialize (Hnan x eq_refl). unfold is_nan in Hnan.
    by apply negb_false_iff in Hnan.
  - apply String.eqb_refl.
  - by apply bool_decide_eq_true_2.
Qed.

(** A number never equals NaN. *)
Lemma Number_equal_nan (x y : float) :
  Prim2SF y = S754_nan -> JS.Number_equal x y = false.
Proof.
  intros Hy. unfold JS.Number_equal. rewrite FloatAxioms.eqb_spec, Hy.
  unfold SFeqb. by destruct (Prim2SF x) as [? |? | |? ? ?].
Qed.

(** A match at [i] puts the last match at or after [i]. *)
Lemma last_match_from (value : JS.prim) (classes : list JS.prim) (i : nat) :
  (i < length classes)%nat ->
  JS.IsLooselyEqual value (get_index classes i) = true ->
  exists j, last_match value classes = Some j /\ (i <= j < length classes)%nat.
Proof.
  unfold last_match. generalize (length classes) as n.
  induction n as [|n IH]; intros Hi Hm; [lia|].
  rewrite matching_indices_S.
  destruct (JS.IsLooselyEqual value (get_index classes n)) eqn:Hn.
  - exists n. rewrite last_snoc. split; [done|lia].
  - rewrite app_nil_r.
    assert (i <> n) by (intros ->; congruence).
    destruct IH as (j & Hj & Hrange); [lia|done|].
    exists j. split; [done|lia].
Qed.

(** X14: a value that is itself listed in [classes] (and is not NaN) always
    gets a colour: [function0] leaves in the style the colour of a position
    at or after the listed one at which the value loosely equals the
    class. *)
Theorem function0_listed_value (feature : feature) (context : context)
    (h : heap) (o : obj) (i : nat) :
  let classes := Hideout.classes (hideout context) in
  let colorscale := Hideout.colorscale (hideout context) in
  let style := Hideout.style (hideout context) in
  let value := get_property (properties feature) (Hideout.colorProp (hideout context)) in
  h !! style = Some o ->
  classes !! i = Some value ->
  (forall x, value = JS.PNum x -> is_nan x = false) ->
  exists j,
    (i <= j < length classes)%nat /\
    JS.IsLooselyEqual value (get_index classes j) = true /\
    fill_color (function0 feature context h).2 style
    = Some (VPrim (get_index colorscale j)).
Proof.
  cbv zeta. intros Ho Hi Hnan.
  destruct (last_match_from
              (get_property (properties feature)
                 (Hideout.colorProp (hideout context)))
              (Hideout.classes (hideout context)) i)
    as (j & Hj & Hrange).
  - by eapply lookup_lt_Some.
  - unfold get_index. rewrite Hi. cbn. by apply IsLooselyEqual_refl.
  - exists j. split; [done|].
    split; [by apply (last_match_elim feature context j)|].
    rewrite function0_unfold, Hj. cbn [snd]. by apply fill_color_set with o.
Qed.

Lemma function0_listed_value_witness :
  exists j,
    (0 <= j < 3)%nat /\
    JS.IsLooselyEqual (JS.PStr "A")
      (get_index [JS.PStr "A"; JS.PStr "B"; JS.PStr "A"] j) = true /\
    fill_color
      (function0 (Sample.with_class (JS.PStr "A")) Sample.repeated_class
         Sample.store).2 Sample.style_ref
    = Some (VPrim (get_index [JS.PStr "red"; JS.PStr "blue"; JS.PStr "green"] j)).
Proof.
  refine (function0_listed_value (Sample.with_class (JS.PStr "A"))
            Sample.repeated_class Sample.store _ 0 eq_refl eq_refl _).
  intros x Hx. discriminate Hx.
Defined.

(** X15: a number equals a string only through the number the string
    denotes.  When the value is a number and every class is a string that
    denotes no number (a label such as "A"), nothing matches and
    [function0] changes nothing. *)
Theorem function0_number_against_labels (feature : feature)
    (context : context) (h : heap) (x : float) :
  let classes := Hideout.classes (hideout context) in
  get_property (properties feature) (Hideout.colorProp (hideout context))
    = JS.PNum x ->
  (forall j c, classes !! j = Some c ->
     exists s, c = JS.PStr s /\ Prim2SF (JS.StringToNumber s) = S754_nan) ->
  function0 feature context h = (Hideout.style (hideout context), h).
Proof.
  cbv zeta. intros Hvalue Hlabels.
  rewrite function0_unfold, last_match_None; [done|].
  intros j c Hc. rewrite Hvalue.
  destruct (Hlabels j c Hc) as (s & -> & Hnan). cbn.
  by apply Number_equal_nan.
Qed.

Lemma function0_number_against_labels_witness :
  function0 (Sample.with_number 5%float) Sample.two_classes Sample.store
  = (Sample.style_ref, Sample.store).
Proof.
  refine (function0_number_against_labels (Sample.with_number 5%float)
            Sample.two_classes Sample.store 5%float eq_refl _).
  intros [|[|j]] c; simpl; intros Hc; inversion Hc;
    eexists; (split; [reflexivity|vm_compute; reflexivity]).
Defined.
